(** * ViNL terrain generator: a shallow embedding of
      [legged_gym/utils/terrain.py] and the properties of its specification.

    Conventions of the embedding.
    - Python [int] is [Z]; [//] on ints is [Z.div] (both round to minus
      infinity for a positive divisor).
    - Python [float] quantities (world sizes, scales, difficulty, choice) are
      exact rationals [Q]: rounding of binary64 is not modelled.  [int(x)] is
      truncation towards zero, [a / b] raises [ZeroDivisionError] when [b] is
      zero.
    - A raised exception is [None] in the [option] monad.
    - A NumPy 2-D array is its shape together with its rows; basic slices
      follow Python's [slice.indices] (negative bounds count from the end,
      bounds are clipped to the axis), and slice assignment follows NumPy's
      broadcasting rule. *)

From Stdlib Require Import ZArith QArith Qabs Lqa Lia List.
From stdpp Require Import base option list.

Local Open Scope Z_scope.

(** ** Python numbers *)

(** [int(x)] for a float [x]: truncation towards zero. *)
Definition py_int (x : Q) : Z := Z.quot (Qnum x) (Z.pos (Qden x)).

(** [a / b] on floats. *)
Definition py_truediv (a b : Q) : option Q :=
  if Qeq_bool b 0 then None else Some (a / b)%Q.

(** Storing a Python int into an [int16] cell (C cast, as NumPy 1.x does). *)
Definition wrap_int16 (z : Z) : Z := (z + 32768) mod 65536 - 32768.

(** Adding a Python int to a [uint32] array element. *)
Definition wrap_uint32 (z : Z) : Z := z mod 4294967296.

(** ** NumPy 2-D arrays of integers *)

Record ndarray := mk_ndarray {
  shape0 : nat;
  shape1 : nat;
  rows_of : list (list Z)
}.

(** [np.zeros((r, c), dtype=np.int16)]; a negative dimension raises. *)
Definition np_zeros (r c : Z) : option ndarray :=
  if (r <? 0) || (c <? 0) then None
  else Some (mk_ndarray (Z.to_nat r) (Z.to_nat c)
               (replicate (Z.to_nat r) (replicate (Z.to_nat c) 0))).

(** The cell [a[i, j]] for in-range non-negative indices. *)
Definition pixel (a : ndarray) (i j : nat) : option Z :=
  row ← rows_of a !! i; row !! j.

(** One bound of a basic slice on an axis of length [n]. *)
Definition slice_bound (k : Z) (n : nat) : Z :=
  if k <? 0 then Z.max (k + Z.of_nat n) 0 else Z.min k (Z.of_nat n).

(** [slice(lo, hi).indices(n)] with step 1: the selected indices are
    [start <= i < stop]. *)
Definition slice_indices (lo hi : Z) (n : nat) : Z * Z :=
  (slice_bound lo n, slice_bound hi n).

Definition slice_len (s : Z * Z) : nat := Z.to_nat (s.2 - s.1).

Definition in_slice (s : Z * Z) (i : nat) : bool :=
  (s.1 <=? Z.of_nat i) && (Z.of_nat i <? s.2).

(** [a[x_lo:x_hi, y_lo:y_hi] = v] for a scalar [v] already of the array's
    type. *)
Definition setitem_scalar (a : ndarray) (x_lo x_hi y_lo y_hi : Z) (v : Z)
  : ndarray :=
  let sx := slice_indices x_lo x_hi (shape0 a) in
  let sy := slice_indices y_lo y_hi (shape1 a) in
  mk_ndarray (shape0 a) (shape1 a)
    (imap (fun i row =>
             if in_slice sx i
             then imap (fun j c => if in_slice sy j then v else c) row
             else row)
          (rows_of a)).

(** NumPy broadcasting of one axis of length [s] onto a target of length
    [t]. *)
Definition broadcastable (s t : nat) : bool := (s =? t)%nat || (s =? 1)%nat.

(** The source cell that lands on offset [(di, dj)] of the target. *)
Definition broadcast_at (src : ndarray) (di dj : nat) : Z :=
  let i := if (shape0 src =? 1)%nat then 0%nat else di in
  let j := if (shape1 src =? 1)%nat then 0%nat else dj in
  default 0 (pixel src i j).

(** [a[x_lo:x_hi, y_lo:y_hi] = src] for an array [src] of the same dtype;
    raises [ValueError] when the shapes cannot be broadcast. *)
Definition setitem_array (a : ndarray) (x_lo x_hi y_lo y_hi : Z)
    (src : ndarray) : option ndarray :=
  let sx := slice_indices x_lo x_hi (shape0 a) in
  let sy := slice_indices y_lo y_hi (shape1 a) in
  if broadcastable (shape0 src) (slice_len sx)
     && broadcastable (shape1 src) (slice_len sy)
  then Some (mk_ndarray (shape0 a) (shape1 a)
    (imap (fun i row =>
             if in_slice sx i
             then imap (fun j c =>
                          if in_slice sy j
                          then broadcast_at src (i - Z.to_nat sx.1)
                                                (j - Z.to_nat sy.1)
                          else c) row
             else row)
          (rows_of a)))
  else None.

(** The cells of [a[x_lo:x_hi, y_lo:y_hi]] in row-major order. *)
Definition getitem_cells (a : ndarray) (x_lo x_hi y_lo y_hi : Z) : list Z :=
  let sx := slice_indices x_lo x_hi (shape0 a) in
  let sy := slice_indices y_lo y_hi (shape1 a) in
  concat ((fun row => take (slice_len sy) (drop (Z.to_nat sy.1) row))
          <$> take (slice_len sx) (drop (Z.to_nat sx.1) (rows_of a))).

(** [np.max] of a list of cells; raises on an empty one. *)
Definition np_max (cells : list Z) : option Z :=
  match cells with
  | [] => None
  | c :: cs => Some (fold_left Z.max cs c)
  end.

(** ** Sub-terrains *)

Module SubTerrain.
(** Modelled from the spec: [isaacgym.terrain_utils.SubTerrain] is not part
    of the repository; section 3 of the specification describes it as a
    patch descriptor with [width], [length], the two scales and an owned
    heightfield array of shape [(length, width)], initially zero. *)
Record t := mk {
  width : Z;
  length : Z;
  vertical_scale : Q;
  horizontal_scale : Q;
  height_field_raw : ndarray
}.

Definition new (width length : Z) (vertical_scale horizontal_scale : Q)
  : option t :=
  hf ← np_zeros length width;
  Some (mk width length vertical_scale horizontal_scale hf).

Definition set_height_field_raw (terrain : t) (hf : ndarray) : t :=
  mk (width terrain) (length terrain) (vertical_scale terrain)
     (horizontal_scale terrain) hf.
End SubTerrain.

(** [gap_terrain(terrain, gap_size, platform_size)]. *)
Definition gap_terrain (terrain : SubTerrain.t) (gap_size platform_size : Q)
  : option SubTerrain.t :=
  gap_size ← py_int <$> py_truediv gap_size (SubTerrain.horizontal_scale terrain);
  platform_size ←
    py_int <$> py_truediv platform_size (SubTerrain.horizontal_scale terrain);
  let center_x := SubTerrain.length terrain / 2 in
  let center_y := SubTerrain.width terrain / 2 in
  let x1 := (SubTerrain.length terrain - platform_size) / 2 in
  let x2 := x1 + gap_size in
  let y1 := (SubTerrain.width terrain - platform_size) / 2 in
  let y2 := y1 + gap_size in
  let hf := setitem_scalar (SubTerrain.height_field_raw terrain)
              (center_x - x2) (center_x + x2) (center_y - y2) (center_y + y2)
              (wrap_int16 (-1000)) in
  let hf := setitem_scalar hf
              (center_x - x1) (center_x + x1) (center_y - y1) (center_y + y1)
              (wrap_int16 0) in
  Some (SubTerrain.set_height_field_raw terrain hf).

(** [pit_terrain(terrain, depth, platform_size)]. *)
Definition pit_terrain (terrain : SubTerrain.t) (depth platform_size : Q)
  : option SubTerrain.t :=
  depth ← py_int <$> py_truediv depth (SubTerrain.vertical_scale terrain);
  q ← py_truediv platform_size (SubTerrain.horizontal_scale terrain);
  platform_size ← py_int <$> py_truediv q 2;
  let x1 := SubTerrain.length terrain / 2 - platform_size in
  let x2 := SubTerrain.length terrain / 2 + platform_size in
  let y1 := SubTerrain.width terrain / 2 - platform_size in
  let y2 := SubTerrain.width terrain / 2 + platform_size in
  Some (SubTerrain.set_height_field_raw terrain
          (setitem_scalar (SubTerrain.height_field_raw terrain)
             x1 x2 y1 y2 (wrap_int16 (- depth)))).

(** ** Configuration and the terrain object *)

Inductive mesh_type := mesh_none | mesh_plane | mesh_heightfield | mesh_trimesh.

Module Cfg.
(** The fields of [LeggedRobotCfg.terrain] that [terrain.py] reads.
    [tot_cols] and [tot_rows] are optional attributes ([hasattr]);
    [terrain_kwargs_type] is the ["type"] entry popped in selected mode. *)
Record t := mk {
  mesh : mesh_type;
  terrain_length : Q;
  terrain_width : Q;
  horizontal_scale : Q;
  vertical_scale : Q;
  border_size : Q;
  num_rows : Z;
  num_cols : Z;
  terrain_proportions : list Q;
  map_path : bool;
  curriculum : bool;
  selected : bool;
  tot_cols : option Z;
  tot_rows : option Z;
  terrain_kwargs_type : option nat
}.
End Cfg.

Definition vertex : Type := Q * Q * Q.
Definition triangle : Type := Z * Z * Z.

Module Terrain.
Record t := mk {
  cfg : Cfg.t;
  num_sub_terrains : Z;
  env_length : Q;
  env_width : Q;
  proportions : list Q;
  env_origins : list (list vertex);
  width_per_env_pixels : Z;
  length_per_env_pixels : Z;
  border : Z;
  tot_cols : Z;
  tot_rows : Z;
  height_field_raw : ndarray;
  vertices : list vertex;
  triangles : list triangle
}.

Definition set_field_and_origins (self : t) (hf : ndarray)
    (origins : list (list vertex)) : t :=
  mk (cfg self) (num_sub_terrains self) (env_length self) (env_width self)
     (proportions self) origins (width_per_env_pixels self)
     (length_per_env_pixels self) (border self) (tot_cols self)
     (tot_rows self) hf (vertices self) (triangles self).

Definition set_mesh (self : t) (vs : list vertex) (ts : list triangle) : t :=
  mk (cfg self) (num_sub_terrains self) (env_length self) (env_width self)
     (proportions self) (env_origins self) (width_per_env_pixels self)
     (length_per_env_pixels self) (border self) (tot_cols self)
     (tot_rows self) (height_field_raw self) vs ts.
End Terrain.

(** The library calls of [terrain.py]: the generators of
    [isaacgym.terrain_utils], NumPy's global random generator (its state is
    [rng]), the generator looked up by name in selected mode and the image
    reader.  Their results are not fixed by the repository. *)
Class Externals := {
  rng : Type;
  pyramid_sloped_terrain :
    SubTerrain.t -> Q -> Q -> rng -> option (SubTerrain.t * rng);
  random_uniform_terrain :
    SubTerrain.t -> Q -> Q -> Q -> Q -> rng -> option (SubTerrain.t * rng);
  pyramid_stairs_terrain :
    SubTerrain.t -> Q -> Q -> Q -> rng -> option (SubTerrain.t * rng);
  discrete_obstacles_terrain :
    SubTerrain.t -> Q -> Q -> Q -> Z -> Q -> rng -> option (SubTerrain.t * rng);
  discrete_obstacles_terrain_cells :
    SubTerrain.t -> Q -> Q -> Z -> Z -> Z -> Q -> rng
    -> option (SubTerrain.t * rng);
  stepping_stones_terrain :
    SubTerrain.t -> Q -> Q -> Q -> Q -> rng -> option (SubTerrain.t * rng);
  random_uniform : Q -> Q -> rng -> Q * rng;
  random_choice : list Q -> rng -> Q * rng;
  eval_generator : nat -> SubTerrain.t -> rng -> option (SubTerrain.t * rng);
  imread_alpha : option ndarray
}.

(** ** Proportion table *)

(** [np.sum] of a list of floats. *)
Definition np_sum (l : list Q) : Q := fold_left Qplus l 0%Q.

(** [self.proportions]: the prefix sums of [cfg.terrain_proportions]. *)
Definition cumulative_proportions (terrain_proportions : list Q) : list Q :=
  (fun i => np_sum (take (i + 1) terrain_proportions))
  <$> seq 0 (length terrain_proportions).

(** ** make_terrain *)

Definition py_lt (a b : Q) : bool := negb (Qle_bool b a).

(** The parameters derived from [difficulty]. *)
Definition slope_of (difficulty : Q) : Q := (difficulty * (4 # 10))%Q.
Definition step_height_of (difficulty : Q) : Q :=
  ((5 # 100) + (18 # 100) * difficulty)%Q.
Definition discrete_obstacles_height_of (difficulty : Q) : Q :=
  ((5 # 100) + difficulty * (2 # 10))%Q.
Definition stepping_stones_size_of (difficulty : Q) : Q :=
  ((15 # 10) * ((105 # 100) - difficulty))%Q.
Definition stone_distance_of (difficulty : Q) : Q :=
  if Qeq_bool difficulty 0 then (5 # 100)%Q else (1 # 10)%Q.
Definition gap_size_of (difficulty : Q) : Q := (1 * difficulty)%Q.
Definition pit_depth_of (difficulty : Q) : Q := (1 * difficulty)%Q.

(** The generator call a branch of [make_terrain] performs, with the
    arguments it passes. *)
Inductive generator_call :=
| call_pyramid_sloped (slope platform_size : Q)
| call_pyramid_sloped_then_random_uniform
    (slope platform_size min_height max_height step downsampled_scale : Q)
| call_pyramid_stairs (step_width step_height platform_size : Q)
| call_discrete_obstacles
    (max_height min_size max_size : Q) (num_rects : Z) (platform_size : Q)
| call_discrete_obstacles_cells
    (min_height max_height : Q) (min_size max_size num_rects : Z)
    (platform_size : Q)
| call_stepping_stones (stone_size stone_distance max_height platform_size : Q)
| call_gap (gap_size platform_size : Q)
| call_pit (depth platform_size : Q).

(** The [if]/[elif] chain of [make_terrain]; indexing [proportions] past its
    end raises. *)
Definition make_terrain_branch (proportions : list Q) (choice difficulty : Q)
  : option generator_call :=
  let slope := slope_of difficulty in
  let step_height := step_height_of difficulty in
  let discrete_obstacles_height := discrete_obstacles_height_of difficulty in
  let stepping_stones_size := stepping_stones_size_of difficulty in
  let stone_distance := stone_distance_of difficulty in
  let gap_size := gap_size_of difficulty in
  let pit_depth := pit_depth_of difficulty in
  p0 ← proportions !! 0%nat;
  if py_lt choice p0 then
    let slope := if py_lt choice (p0 / 2)%Q then (slope * -1)%Q else slope in
    Some (call_pyramid_sloped slope 3)
  else
  p1 ← proportions !! 1%nat;
  if py_lt choice p1 then
    Some (call_pyramid_sloped_then_random_uniform
            slope 3 (- (5 # 100)) (5 # 100) (5 # 1000) (2 # 10))
  else
  p3 ← proportions !! 3%nat;
  if py_lt choice p3 then
    p2 ← proportions !! 2%nat;
    let step_height :=
      if py_lt choice p2 then (step_height * -1)%Q else step_height in
    Some (call_pyramid_stairs (31 # 100) step_height 3)
  else
  p4 ← proportions !! 4%nat;
  if py_lt choice p4 then
    Some (call_discrete_obstacles discrete_obstacles_height 1 2 20 3)
  else
  p5 ← proportions !! 5%nat;
  if py_lt choice p5 then
    Some (call_discrete_obstacles_cells
            (14 # 100) (15 # 100) 2 5 (py_int (200 * difficulty)) 3)
  else
  p6 ← proportions !! 6%nat;
  if py_lt choice p6 then
    Some (call_stepping_stones stepping_stones_size stone_distance 0 4)
  else
  p7 ← proportions !! 7%nat;
  if py_lt choice p7 then Some (call_gap gap_size 3)
  else Some (call_pit pit_depth 4).

Section WithExternals.
Context {ext : Externals}.

(** Performing a generator call on a sub-terrain. *)
Definition run_generator (c : generator_call) (terrain : SubTerrain.t)
    (g : rng) : option (SubTerrain.t * rng) :=
  match c with
  | call_pyramid_sloped slope platform_size =>
      pyramid_sloped_terrain terrain slope platform_size g
  | call_pyramid_sloped_then_random_uniform slope platform_size
      min_height max_height step downsampled_scale =>
      '(terrain, g) ← pyramid_sloped_terrain terrain slope platform_size g;
      random_uniform_terrain terrain min_height max_height step
        downsampled_scale g
  | call_pyramid_stairs step_width step_height platform_size =>
      pyramid_stairs_terrain terrain step_width step_height platform_size g
  | call_discrete_obstacles max_height min_size max_size num_rects
      platform_size =>
      discrete_obstacles_terrain terrain max_height min_size max_size
        num_rects platform_size g
  | call_discrete_obstacles_cells min_height max_height min_size max_size
      num_rects platform_size =>
      discrete_obstacles_terrain_cells terrain min_height max_height
        min_size max_size num_rects platform_size g
  | call_stepping_stones stone_size stone_distance max_height
      platform_size =>
      stepping_stones_terrain terrain stone_size stone_distance max_height
        platform_size g
  | call_gap gap_size platform_size =>
      terrain ← gap_terrain terrain gap_size platform_size; Some (terrain, g)
  | call_pit depth platform_size =>
      terrain ← pit_terrain terrain depth platform_size; Some (terrain, g)
  end.

(** [Terrain.make_terrain(choice, difficulty)]. *)
Definition make_terrain (self : Terrain.t) (choice difficulty : Q) (g : rng)
  : option (SubTerrain.t * rng) :=
  terrain ← SubTerrain.new
              (Terrain.width_per_env_pixels self)
              (Terrain.width_per_env_pixels self)
              (Cfg.vertical_scale (Terrain.cfg self))
              (Cfg.horizontal_scale (Terrain.cfg self));
  c ← make_terrain_branch (Terrain.proportions self) choice difficulty;
  run_generator c terrain g.
End WithExternals.

(** ** Placing a sub-terrain on the map *)

(** An integer index [k] on an axis of length [n]: negative indices count
    from the end, anything else out of range raises [IndexError]. *)
Definition np_index (k : Z) (n : nat) : option nat :=
  if (0 <=? k) && (k <? Z.of_nat n) then Some (Z.to_nat k)
  else if (- Z.of_nat n <=? k) && (k <? 0) then Some (Z.to_nat (k + Z.of_nat n))
  else None.

(** [np.zeros((r, c, 3))]. *)
Definition np_zeros3 (r c : Z) : option (list (list vertex)) :=
  if (r <? 0) || (c <? 0) then None
  else Some (replicate (Z.to_nat r) (replicate (Z.to_nat c) (0, 0, 0)%Q)).

(** [origins[i, j] = v]. *)
Definition setitem_origin (origins : list (list vertex)) (i j : Z) (v : vertex)
  : option (list (list vertex)) :=
  i' ← np_index i (length origins);
  row ← origins !! i';
  j' ← np_index j (length row);
  Some (<[i' := <[j' := v]> row]> origins).

(** [origins[i][j]] for in-range non-negative indices. *)
Definition origin_at (origins : list (list vertex)) (i j : nat)
  : option vertex :=
  row ← origins !! i; row !! j.

(** [Terrain.add_terrain_to_map(terrain, row, col)]. *)
Definition add_terrain_to_map (self : Terrain.t) (terrain : SubTerrain.t)
    (row col : Z) : option Terrain.t :=
  let i := row in
  let j := col in
  let start_x := Terrain.border self + i * Terrain.length_per_env_pixels self in
  let end_x :=
    Terrain.border self + (i + 1) * Terrain.length_per_env_pixels self in
  let start_y := Terrain.border self + j * Terrain.width_per_env_pixels self in
  let end_y :=
    Terrain.border self + (j + 1) * Terrain.width_per_env_pixels self in
  hf ← setitem_array (Terrain.height_field_raw self)
         start_x end_x start_y end_y (SubTerrain.height_field_raw terrain);
  let env_origin_x := ((inject_Z i + (1 # 2)) * Terrain.env_length self)%Q in
  let env_origin_y := ((inject_Z j + (1 # 2)) * Terrain.env_width self)%Q in
  x1 ← py_int <$> py_truediv (Terrain.env_length self / 2 - 1)%Q
                    (SubTerrain.horizontal_scale terrain);
  x2 ← py_int <$> py_truediv (Terrain.env_length self / 2 + 1)%Q
                    (SubTerrain.horizontal_scale terrain);
  y1 ← py_int <$> py_truediv (Terrain.env_width self / 2 - 1)%Q
                    (SubTerrain.horizontal_scale terrain);
  y2 ← py_int <$> py_truediv (Terrain.env_width self / 2 + 1)%Q
                    (SubTerrain.horizontal_scale terrain);
  m ← np_max (getitem_cells (SubTerrain.height_field_raw terrain) x1 x2 y1 y2);
  let env_origin_z := (inject_Z m * SubTerrain.vertical_scale terrain)%Q in
  origins ← setitem_origin (Terrain.env_origins self) i j
              (env_origin_x, env_origin_y, env_origin_z);
  Some (Terrain.set_field_and_origins self hf origins).

(** ** Generation modes *)

(** A [for] loop whose body may raise. *)
Fixpoint for_each {S A : Type} (xs : list A) (body : S -> A -> option S)
    (s : S) : option S :=
  match xs with
  | [] => Some s
  | x :: xs => s ← body s x; for_each xs body s
  end.

(** [range(n)]. *)
Definition py_range (n : Z) : list Z := Z.of_nat <$> seq 0 (Z.to_nat n).

(** [np.unravel_index(k, (r, c))]. *)
Definition unravel_index (k r c : Z) : option (Z * Z) :=
  if (0 <=? k) && (k <? r * c) && (0 <? c) then Some (k / c, k mod c) else None.

(** [int / int] (true division). *)
Definition py_int_truediv (a b : Z) : option Q :=
  py_truediv (inject_Z a) (inject_Z b).

(** [a.repeat(3, axis=0).repeat(3, axis=1)]. *)
Definition repeat3 (a : ndarray) : ndarray :=
  mk_ndarray (3 * shape0 a) (3 * shape1 a)
    (flat_map (fun row => replicate 3 (flat_map (replicate 3) row))
              (rows_of a)).

(** [to_shape(a, shape)]: zero padding around [a]; [np.pad] refuses a
    negative pad width. *)
Definition to_shape (a : ndarray) (shape : Z * Z) : option ndarray :=
  let '(y_, x_) := shape in
  let y := Z.of_nat (shape0 a) in
  let x := Z.of_nat (shape1 a) in
  let y_pad := y_ - y in
  let x_pad := x_ - x in
  let top := y_pad / 2 in
  let bottom := y_pad / 2 + y_pad mod 2 in
  let left := x_pad / 2 in
  let right := x_pad / 2 + x_pad mod 2 in
  if (top <? 0) || (bottom <? 0) || (left <? 0) || (right <? 0) then None
  else
    let width := Z.to_nat (left + x + right) in
    let pad_row row :=
      replicate (Z.to_nat left) 0 ++ row ++ replicate (Z.to_nat right) 0 in
    Some (mk_ndarray (Z.to_nat (top + y + bottom)) width
            (replicate (Z.to_nat top) (replicate width 0)
             ++ map pad_row (rows_of a)
             ++ replicate (Z.to_nat bottom) (replicate width 0))).

Section Modes.
Context {ext : Externals}.

(** [Terrain.randomized_terrain()]. *)
Definition randomized_terrain (self : Terrain.t) (g : rng)
  : option (Terrain.t * rng) :=
  for_each (py_range (Terrain.num_sub_terrains self))
    (fun '(self, g) k =>
       '(i, j) ← unravel_index k (Cfg.num_rows (Terrain.cfg self))
                                 (Cfg.num_cols (Terrain.cfg self));
       let '(choice, g) := random_uniform 0 1 g in
       let '(difficulty, g) :=
         random_choice [(5 # 10); (75 # 100); (9 # 10)]%Q g in
       '(terrain, g) ← make_terrain self choice difficulty g;
       self ← add_terrain_to_map self terrain i j;
       Some (self, g))
    (self, g).

(** [Terrain.curiculum()]. *)
Definition curiculum (self : Terrain.t) (g : rng)
  : option (Terrain.t * rng) :=
  let cfg := Terrain.cfg self in
  let num_cols := default (Cfg.num_cols cfg) (Cfg.tot_cols cfg) in
  let num_rows := default (Cfg.num_rows cfg) (Cfg.tot_rows cfg) in
  for_each (py_range num_cols)
    (fun s j =>
       for_each (py_range num_rows)
         (fun '(self, g) i =>
            difficulty ← py_int_truediv i (Cfg.num_rows cfg);
            choice ← (fun q => q + (1 # 1000))%Q
                       <$> py_int_truediv j (Cfg.num_cols cfg);
            '(terrain, g) ← make_terrain self choice difficulty g;
            self ← add_terrain_to_map self terrain i j;
            Some (self, g))
         s)
    (self, g).

(** [self.vertical_scale] and [self.horizontal_scale] on the terrain
    object: [__init__] stores the scales in [self.cfg] only, so the
    attribute lookup raises [AttributeError]. *)
Definition self_vertical_scale (self : Terrain.t) : option Q := None.
Definition self_horizontal_scale (self : Terrain.t) : option Q := None.

(** [Terrain.selected_terrain()]. *)
Definition selected_terrain (self : Terrain.t) (g : rng)
  : option (Terrain.t * rng) :=
  terrain_type ← Cfg.terrain_kwargs_type (Terrain.cfg self);
  for_each (py_range (Terrain.num_sub_terrains self))
    (fun '(self, g) k =>
       '(i, j) ← unravel_index k (Cfg.num_rows (Terrain.cfg self))
                                 (Cfg.num_cols (Terrain.cfg self));
       vertical_scale ← self_vertical_scale self;
       horizontal_scale ← self_horizontal_scale self;
       terrain ← SubTerrain.new
                   (Terrain.width_per_env_pixels self)
                   (Terrain.width_per_env_pixels self)
                   vertical_scale horizontal_scale;
       '(terrain, g) ← eval_generator terrain_type terrain g;
       self ← add_terrain_to_map self terrain i j;
       Some (self, g))
    (self, g).

(** What [Terrain(cfg, num_robots)] leaves behind: for the mesh types
    ["none"] and ["plane"] only the configuration is stored. *)
Inductive terrain_object :=
| Unpopulated (cfg : Cfg.t)
| Populated (self : Terrain.t).

(** [Terrain.__init__] up to the population of the heightfield and of the
    cell origins (the conversion to a triangle mesh that follows is a
    library call on the finished heightfield). *)
Definition Terrain_init (cfg : Cfg.t) (g : rng)
  : option (terrain_object * rng) :=
  match Cfg.mesh cfg with
  | mesh_none | mesh_plane => Some (Unpopulated cfg, g)
  | _ =>
    let env_length := Cfg.terrain_length cfg in
    let env_width := Cfg.terrain_width cfg in
    let proportions := cumulative_proportions (Cfg.terrain_proportions cfg) in
    let num_sub_terrains := Cfg.num_rows cfg * Cfg.num_cols cfg in
    env_origins ← np_zeros3 (Cfg.num_rows cfg) (Cfg.num_cols cfg);
    width_per_env_pixels ←
      py_int <$> py_truediv env_width (Cfg.horizontal_scale cfg);
    length_per_env_pixels ←
      py_int <$> py_truediv env_length (Cfg.horizontal_scale cfg);
    border ←
      py_int <$> py_truediv (Cfg.border_size cfg) (Cfg.horizontal_scale cfg);
    let tot_cols := Cfg.num_cols cfg * width_per_env_pixels + 2 * border in
    let tot_rows := Cfg.num_rows cfg * length_per_env_pixels + 2 * border in
    height_field_raw ← np_zeros tot_rows tot_cols;
    let self :=
      Terrain.mk cfg num_sub_terrains env_length env_width proportions
        env_origins width_per_env_pixels length_per_env_pixels border
        tot_cols tot_rows height_field_raw [] [] in
    '(self, g) ←
      (if Cfg.map_path cfg then
         im ← imread_alpha;
         hf ← to_shape (repeat3 im) (900, 900);
         Some (Terrain.set_field_and_origins self hf
                 (Terrain.env_origins self), g)
       else if Cfg.curriculum cfg then curiculum self g
       else if Cfg.selected cfg then selected_terrain self g
       else randomized_terrain self g);
    Some (Populated self, g)
  end.
End Modes.

(** ** Mesh augmentation *)

(** [itertools.permutations(pool, r)]: the [r]-length arrangements of
    distinct positions of [pool], in lexicographic order of positions. *)
Fixpoint permutations {A : Type} (pool : list A) (r : nat) : list (list A) :=
  match r with
  | O => [[]]
  | S r' =>
      flat_map (fun k =>
                  match pool !! k with
                  | Some x => map (cons x) (permutations (delete k pool) r')
                  | None => []
                  end)
               (seq 0 (length pool))
  end.

(** A row of a [(n, 3)] index array. *)
Definition as_triangle (l : list Z) : option triangle :=
  match l with
  | [a; b; c] => Some (a, b, c)
  | _ => None
  end.

Definition triangle_add (t : triangle) (n : Z) : triangle :=
  let '(a, b, c) := t in
  (wrap_uint32 (a + n), wrap_uint32 (b + n), wrap_uint32 (c + n)).

(** [Terrain.add_block(x0, y0, s1, s2, h)]. *)
Definition add_block (self : Terrain.t) (x0 y0 s1 s2 h : Q) : Terrain.t :=
  let new_vertices : list vertex :=
    [ (x0, y0, 0);
      (x0 + s1, y0, 0);
      (x0, y0 + s2, 0);
      (x0 + s1, y0 + s2, 0);
      (x0, y0, h);
      (x0 + s1, y0, h);
      (x0, y0 + s2, h);
      (x0 + s1, y0 + s2, h) ]%Q in
  let new_triangles := omap as_triangle (permutations (py_range 8) 3) in
  let triangles :=
    Terrain.triangles self
    ++ ((fun t => triangle_add t (Z.of_nat (length (Terrain.vertices self))))
        <$> new_triangles) in
  let vertices := Terrain.vertices self ++ new_vertices in
  Terrain.set_mesh self vertices triangles.

(** * Vocabulary of the specification *)

(** The pixel [(i, j)] lies in the square [[lo, hi) x [lo, hi)]. *)
Definition in_square (lo hi : Z) (i j : nat) : bool :=
  (lo <=? Z.of_nat i) && (Z.of_nat i <? hi)
  && (lo <=? Z.of_nat j) && (Z.of_nat j <? hi).

(** The pixel [(i, j)] lies in [[x_lo, x_hi) x [y_lo, y_hi)]. *)
Definition in_rect (x_lo x_hi y_lo y_hi : Z) (i j : nat) : bool :=
  (x_lo <=? Z.of_nat i) && (Z.of_nat i <? x_hi)
  && (y_lo <=? Z.of_nat j) && (Z.of_nat j <? y_hi).

(** The local index triples of one block: ordered triples of distinct
    corners [0..7]. *)
Definition distinct_corners (t : triangle) : bool :=
  let '(a, b, c) := t in
  (0 <=? a) && (a <? 8) && (0 <=? b) && (b <? 8) && (0 <=? c) && (c <? 8)
  && negb (a =? b) && negb (a =? c) && negb (b =? c).

(** The eight corners of the prism of footprint [s1 x s2] and height [h]
    based at [z = 0] with lower corner [(x0, y0)]. *)
Definition prism_corners (x0 y0 s1 s2 h : Q) : list vertex :=
  [ (x0, y0, 0); (x0 + s1, y0, 0); (x0, y0 + s2, 0); (x0 + s1, y0 + s2, 0);
    (x0, y0, h); (x0 + s1, y0, h); (x0, y0 + s2, h); (x0 + s1, y0 + s2, h)
  ]%Q.

(** A configuration and a terrain object to evaluate the model on: a 2 x 2
    grid of 4 m x 4 m cells at one pixel per metre, with a 2 m border. *)
Definition demo_cfg : Cfg.t :=
  Cfg.mk mesh_heightfield 4 4 1 (1 # 2) 2 2 2
    [1 # 8; 1 # 8; 1 # 8; 1 # 8; 1 # 8; 1 # 8; 1 # 8; 1 # 8]%Q
    false true false None None None.

Definition demo_terrain : Terrain.t :=
  Terrain.mk demo_cfg 4 4 4
    (cumulative_proportions (Cfg.terrain_proportions demo_cfg))
    (replicate 2 (replicate 2 (0, 0, 0)%Q)) 4 4 2 12 12
    (mk_ndarray 12 12 (replicate 12 (replicate 12 0))) [] [].

(** The index of the first threshold that [choice] is strictly below. *)
Fixpoint first_below (thresholds : list Q) (choice : Q) : option nat :=
  match thresholds with
  | [] => None
  | t :: ts =>
      if py_lt choice t then Some 0%nat else S <$> first_below ts choice
  end.

(** The dispatch as the specification words it: the first of the 8
    thresholds, in index order, that [choice] is strictly below selects the
    branch; thresholds 2 and 3 both select the stairs, descending (negated
    step height) for threshold 2; below half of threshold 0 the slope is
    negated; below no threshold the pit is selected. *)
Definition dispatch_by_first_threshold (proportions : list Q)
    (choice difficulty : Q) : generator_call :=
  match first_below (take 8 proportions) choice with
  | Some 0%nat =>
      call_pyramid_sloped
        (if py_lt choice (default 0%Q (proportions !! 0%nat) / 2)%Q
         then (slope_of difficulty * -1)%Q else slope_of difficulty) 3
  | Some 1%nat =>
      call_pyramid_sloped_then_random_uniform
        (slope_of difficulty) 3 (- (5 # 100)) (5 # 100) (5 # 1000) (2 # 10)
  | Some 2%nat =>
      call_pyramid_stairs (31 # 100) (step_height_of difficulty * -1)%Q 3
  | Some 3%nat => call_pyramid_stairs (31 # 100) (step_height_of difficulty) 3
  | Some 4%nat =>
      call_discrete_obstacles (discrete_obstacles_height_of difficulty)
        1 2 20 3
  | Some 5%nat =>
      call_discrete_obstacles_cells (14 # 100) (15 # 100) 2 5
        (py_int (200 * difficulty)) 3
  | Some 6%nat =>
      call_stepping_stones (stepping_stones_size_of difficulty)
        (stone_distance_of difficulty) 0 4
  | Some 7%nat => call_gap (gap_size_of difficulty) 3
  | _ => call_pit (pit_depth_of difficulty) 4
  end.

(** The rows of an array agree with its shape. *)
Definition ndarray_wf (a : ndarray) : bool :=
  (length (rows_of a) =? shape0 a)%nat
  && forallb (fun row => (length row =? shape1 a)%nat) (rows_of a).

(** The layout [__init__] gives the terrain object: non-negative pixel
    sizes, a heightfield of [num_rows * length_per_env_pixels + 2 * border]
    by [num_cols * width_per_env_pixels + 2 * border] pixels and one origin
    per cell. *)
Definition grid_layout (self : Terrain.t) : bool :=
  (0 <=? Terrain.border self)
  && (0 <=? Terrain.length_per_env_pixels self)
  && (0 <=? Terrain.width_per_env_pixels self)
  && (Z.of_nat (shape0 (Terrain.height_field_raw self))
      =? Cfg.num_rows (Terrain.cfg self) * Terrain.length_per_env_pixels self
         + 2 * Terrain.border self)
  && (Z.of_nat (shape1 (Terrain.height_field_raw self))
      =? Cfg.num_cols (Terrain.cfg self) * Terrain.width_per_env_pixels self
         + 2 * Terrain.border self)
  && (Z.of_nat (length (Terrain.env_origins self))
      =? Cfg.num_rows (Terrain.cfg self))
  && forallb (fun row =>
                Z.of_nat (length row) =? Cfg.num_cols (Terrain.cfg self))
             (Terrain.env_origins self).

(** The pixel [(i, j)] of the map lies in the outer frame of width
    [border]. *)
Definition in_border (self : Terrain.t) (i j : nat) : bool :=
  let rows := Z.of_nat (shape0 (Terrain.height_field_raw self)) in
  let cols := Z.of_nat (shape1 (Terrain.height_field_raw self)) in
  in_rect 0 rows 0 cols i j
  && negb (in_rect (Terrain.border self) (rows - Terrain.border self)
                   (Terrain.border self) (cols - Terrain.border self) i j).

(** The pixel [(i, j)] of the map lies in the slot of cell [(row, col)]. *)
Definition in_slot (self : Terrain.t) (row col : Z) (i j : nat) : bool :=
  in_rect
    (Terrain.border self + row * Terrain.length_per_env_pixels self)
    (Terrain.border self + (row + 1) * Terrain.length_per_env_pixels self)
    (Terrain.border self + col * Terrain.width_per_env_pixels self)
    (Terrain.border self + (col + 1) * Terrain.width_per_env_pixels self)
    i j.

(** The window of [add_terrain_to_map]: one metre either side of the cell
    centre on one axis, in pixels. *)
Definition window_lo (env_size horizontal_scale : Q) : Z :=
  py_int ((env_size / 2 - 1) / horizontal_scale).
Definition window_hi (env_size horizontal_scale : Q) : Z :=
  py_int ((env_size / 2 + 1) / horizontal_scale).

(** A sub-terrain of 4 x 4 pixels with a single peak of raw height 7 at
    pixel (1, 1). *)
Definition demo_peak : SubTerrain.t :=
  SubTerrain.mk 4 4 (1 # 2) 1
    (mk_ndarray 4 4 [[0; 0; 0; 0]; [0; 7; 0; 0]; [0; 0; 0; 0]; [0; 0; 0; 0]]).

(** Library calls to evaluate the model with: every generator leaves the
    sub-terrain flat, the random generator state counts the draws,
    [uniform] returns its lower bound and [choice] the first candidate. *)
Definition flat_externals : Externals := {|
  rng := nat;
  pyramid_sloped_terrain t _ _ g := Some (t, g);
  random_uniform_terrain t _ _ _ _ g := Some (t, S g);
  pyramid_stairs_terrain t _ _ _ g := Some (t, g);
  discrete_obstacles_terrain t _ _ _ _ _ g := Some (t, S g);
  discrete_obstacles_terrain_cells t _ _ _ _ _ _ g := Some (t, S g);
  stepping_stones_terrain t _ _ _ _ g := Some (t, g);
  random_uniform lo _ g := (lo, S g);
  random_choice l g := (default 0%Q (head l), S g);
  eval_generator _ t g := Some (t, g);
  imread_alpha := None
|}.

(** Two sub-terrains of the same dimensions. *)
Definition same_shape (t t' : SubTerrain.t) : Prop :=
  SubTerrain.width t' = SubTerrain.width t /\
  SubTerrain.length t' = SubTerrain.length t /\
  shape0 (SubTerrain.height_field_raw t')
    = shape0 (SubTerrain.height_field_raw t) /\
  shape1 (SubTerrain.height_field_raw t')
    = shape1 (SubTerrain.height_field_raw t).

(** The contract of the library generators that the specification relies
    on: a generator mutates the heightfield of the sub-terrain in place and
    keeps its dimensions. *)
Class ShapePreserving (ext : Externals) : Prop := {
  pyramid_sloped_terrain_shape t a b g t' g' :
    pyramid_sloped_terrain t a b g = Some (t', g') -> same_shape t t';
  random_uniform_terrain_shape t a b c d g t' g' :
    random_uniform_terrain t a b c d g = Some (t', g') -> same_shape t t';
  pyramid_stairs_terrain_shape t a b c g t' g' :
    pyramid_stairs_terrain t a b c g = Some (t', g') -> same_shape t t';
  discrete_obstacles_terrain_shape t a b c n d g t' g' :
    discrete_obstacles_terrain t a b c n d g = Some (t', g') ->
    same_shape t t';
  discrete_obstacles_terrain_cells_shape t a b n1 n2 n3 c g t' g' :
    discrete_obstacles_terrain_cells t a b n1 n2 n3 c g = Some (t', g') ->
    same_shape t t';
  stepping_stones_terrain_shape t a b c d g t' g' :
    stepping_stones_terrain t a b c d g = Some (t', g') -> same_shape t t'
}.

(** A terrain object whose cells are 8.05 m long and 8 m wide at 0.1 m per
    pixel: both sides are 80 pixels. *)
Definition uneven_terrain : Terrain.t :=
  Terrain.mk
    (Cfg.mk mesh_heightfield (805 # 100) 8 (1 # 10) (5 # 1000) 0 1 1
       [1 # 8; 1 # 8; 1 # 8; 1 # 8; 1 # 8; 1 # 8; 1 # 8; 1 # 8]%Q
       false true false None None None)
    1 (805 # 100) 8
    (cumulative_proportions
       [1 # 8; 1 # 8; 1 # 8; 1 # 8; 1 # 8; 1 # 8; 1 # 8; 1 # 8]%Q)
    [[(0, 0, 0)%Q]] 80 80 0 80 80
    (mk_ndarray 80 80 (replicate 80 (replicate 80 0))) [] [].

(** Every pixel of the border frame is 0. *)
Definition flat_border (self : Terrain.t) : Prop :=
  forall i j,
    in_border self i j = true ->
    pixel (Terrain.height_field_raw self) i j = Some 0.

(** What the population loops maintain: the configuration, the border
    width, the layout and the flat border. *)
Definition populating (cfg : Cfg.t) (border : Z) (self : Terrain.t) : Prop :=
  Terrain.cfg self = cfg /\ Terrain.border self = border /\
  grid_layout self = true /\ flat_border self.

(** Library calls with a readable image: as [flat_externals], with [im] as
    the alpha channel of the image file. *)
Definition image_externals (im : ndarray) : Externals := {|
  rng := nat;
  pyramid_sloped_terrain t _ _ g := Some (t, g);
  random_uniform_terrain t _ _ _ _ g := Some (t, S g);
  pyramid_stairs_terrain t _ _ _ g := Some (t, g);
  discrete_obstacles_terrain t _ _ _ _ _ g := Some (t, S g);
  discrete_obstacles_terrain_cells t _ _ _ _ _ _ g := Some (t, S g);
  stepping_stones_terrain t _ _ _ _ g := Some (t, g);
  random_uniform lo _ g := (lo, S g);
  random_choice l g := (default 0%Q (head l), S g);
  eval_generator _ t g := Some (t, g);
  imread_alpha := Some im
|}.

(** [demo_cfg] with an image path, and with the selected mode. *)
Definition image_cfg : Cfg.t :=
  Cfg.mk mesh_trimesh 4 4 1 (1 # 2) 2 2 2
    [1 # 8; 1 # 8; 1 # 8; 1 # 8; 1 # 8; 1 # 8; 1 # 8; 1 # 8]%Q
    true true false None None None.

Definition selected_cfg : Cfg.t :=
  Cfg.mk mesh_heightfield 4 4 1 (1 # 2) 2 2 2
    [1 # 8; 1 # 8; 1 # 8; 1 # 8; 1 # 8; 1 # 8; 1 # 8; 1 # 8]%Q
    false false true None None (Some 0%nat).

(** * Properties *)

(** ** Arrays *)

Lemma pixel_np_zeros r c a i j :
  np_zeros r c = Some a ->
  pixel a i j =
    if (Z.of_nat i <? r) && (Z.of_nat j <? c) then Some 0 else None.
Proof.
  unfold np_zeros. destruct (_ || _) eqn:Hneg; [done|].
  intros [= <-]. unfold pixel; simpl.
  apply orb_false_elim in Hneg as [Hr Hc].
  destruct (Z.ltb_spec (Z.of_nat i) r) as [Hi|Hi]; simpl.
  - rewrite lookup_replicate_2 by lia. simpl.
    destruct (Z.ltb_spec (Z.of_nat j) c) as [Hj|Hj].
    + rewrite lookup_replicate_2 by lia. done.
    + apply lookup_replicate_None. lia.
  - replace (replicate (Z.to_nat r) _ !! i) with (@None (list Z)); [done|].
    symmetry. apply lookup_replicate_None. lia.
Qed.

Lemma shape_np_zeros r c a :
  np_zeros r c = Some a -> shape0 a = Z.to_nat r /\ shape1 a = Z.to_nat c.
Proof.
  unfold np_zeros. destruct (_ || _); [done|]. by intros [= <-].
Qed.

Lemma pixel_setitem_scalar a x_lo x_hi y_lo y_hi v i j :
  pixel (setitem_scalar a x_lo x_hi y_lo y_hi v) i j =
    (fun c =>
       if in_slice (slice_indices x_lo x_hi (shape0 a)) i
          && in_slice (slice_indices y_lo y_hi (shape1 a)) j
       then v else c) <$> pixel a i j.
Proof.
  unfold pixel, setitem_scalar; simpl.
  rewrite list_lookup_imap.
  destruct (rows_of a !! i) as [row|]; simpl; [|done].
  destruct (in_slice _ i); simpl.
  - by rewrite list_lookup_imap.
  - by destruct (row !! j).
Qed.

Lemma setitem_array_Some a x_lo x_hi y_lo y_hi src a' :
  setitem_array a x_lo x_hi y_lo y_hi src = Some a' ->
  shape0 a' = shape0 a /\ shape1 a' = shape1 a /\
  forall i j,
    pixel a' i j =
      (fun c =>
         if in_slice (slice_indices x_lo x_hi (shape0 a)) i
            && in_slice (slice_indices y_lo y_hi (shape1 a)) j
         then broadcast_at src
                (i - Z.to_nat (slice_indices x_lo x_hi (shape0 a)).1)
                (j - Z.to_nat (slice_indices y_lo y_hi (shape1 a)).1)
         else c) <$> pixel a i j.
Proof.
  unfold setitem_array. destruct (_ && _); [|done].
  intros [= <-]. split; [done|]. split; [done|].
  intros i j. unfold pixel; simpl.
  rewrite list_lookup_imap.
  destruct (rows_of a !! i) as [row|]; simpl; [|done].
  destruct (in_slice _ i); simpl.
  - by rewrite list_lookup_imap.
  - by destruct (row !! j).
Qed.

Lemma setitem_array_is_Some a x_lo x_hi y_lo y_hi src :
  is_Some (setitem_array a x_lo x_hi y_lo y_hi src) <->
  broadcastable (shape0 src)
    (slice_len (slice_indices x_lo x_hi (shape0 a))) = true /\
  broadcastable (shape1 src)
    (slice_len (slice_indices y_lo y_hi (shape1 a))) = true.
Proof.
  unfold setitem_array. rewrite <- andb_true_iff.
  destruct (_ && _); split; intros H; try done.
Qed.

(** A slice with non-negative bounds selects only indices between them. *)
Lemma in_slice_bounds lo hi n i :
  0 <= lo -> 0 <= hi ->
  in_slice (slice_indices lo hi n) i = true ->
  lo <= Z.of_nat i < hi.
Proof.
  unfold in_slice, slice_indices, slice_bound; simpl.
  intros Hlo Hhi H. apply andb_true_iff in H as [H1 H2].
  apply Z.leb_le in H1. apply Z.ltb_lt in H2. revert H1 H2.
  destruct (Z.ltb_spec lo 0), (Z.ltb_spec hi 0); lia.
Qed.

(** A slice that fits the axis selects exactly the indices between its
    bounds. *)
Lemma in_slice_fits lo hi n i :
  0 <= lo -> lo <= hi -> hi <= Z.of_nat n ->
  in_slice (slice_indices lo hi n) i
  = (lo <=? Z.of_nat i) && (Z.of_nat i <? hi).
Proof.
  unfold in_slice, slice_indices, slice_bound; simpl. intros Hlo Hle Hhi.
  destruct (Z.ltb_spec lo 0), (Z.ltb_spec hi 0); try lia;
    repeat match goal with
      | |- context [(?a <=? ?b)] => destruct (Z.leb_spec a b)
      | |- context [(?a <? ?b)] => destruct (Z.ltb_spec a b)
      end; simpl; lia.
Qed.

Lemma slice_len_fits lo hi n :
  0 <= lo -> lo <= hi -> hi <= Z.of_nat n ->
  slice_len (slice_indices lo hi n) = Z.to_nat (hi - lo).
Proof.
  unfold slice_len, slice_indices, slice_bound; simpl. intros.
  destruct (Z.ltb_spec lo 0), (Z.ltb_spec hi 0); f_equal; lia.
Qed.

(** ** gap_terrain and pit_terrain *)

Lemma SubTerrain_new_Some width length vs hs t :
  SubTerrain.new width length vs hs = Some t ->
  SubTerrain.width t = width /\ SubTerrain.length t = length /\
  SubTerrain.vertical_scale t = vs /\ SubTerrain.horizontal_scale t = hs /\
  np_zeros length width = Some (SubTerrain.height_field_raw t).
Proof.
  unfold SubTerrain.new. destruct (np_zeros length width); [|done].
  by intros [= <-].
Qed.

(** Evaluate the closed slices and stored scalars of a goal. *)
Ltac eval_slices :=
  repeat match goal with
    | |- context [slice_indices ?a ?b ?n] =>
        let v := eval vm_compute in (slice_indices a b n) in
        change (slice_indices a b n) with v
    | |- context [wrap_int16 ?z] =>
        let v := eval vm_compute in (wrap_int16 z) in
        change (wrap_int16 z) with v
    end.

(** Decide a goal about pixels by cases on every integer comparison. *)
Ltac by_comparisons :=
  repeat match goal with
    | |- context [(?a <=? ?b)] => destruct (Z.leb_spec a b)
    | |- context [(?a <? ?b)] => destruct (Z.ltb_spec a b)
    end; simpl; try done; try lia.

Lemma SubTerrain_new_is_Some width length vs hs :
  0 <= width -> 0 <= length ->
  exists t, SubTerrain.new width length vs hs = Some t.
Proof.
  intros Hw Hl. unfold SubTerrain.new, np_zeros.
  destruct (Z.ltb_spec length 0), (Z.ltb_spec width 0); try lia.
  simpl. eauto.
Qed.

(** The heightfield [gap_terrain] leaves on the all-zero 100 x 100
    sub-terrain for [gap_size = 1.0], [platform_size = 3.0] and
    [horizontal_scale = 0.1]: the outer write covers [[5, 95)] on both axes,
    the inner one [[15, 85)]. *)
Lemma gap_terrain_example_pixels vs t0 :
  SubTerrain.new 100 100 vs (1 # 10) = Some t0 ->
  exists t,
    gap_terrain t0 1 3 = Some t /\
    forall i j,
      pixel (SubTerrain.height_field_raw t) i j =
        if in_square 0 100 i j
        then Some (if in_square 5 95 i j && negb (in_square 15 85 i j)
                   then -1000 else 0)
        else None.
Proof.
  intros Hnew.
  apply SubTerrain_new_Some in Hnew as (Hw & Hl & _ & Hhs & Hz).
  unfold gap_terrain. rewrite Hhs, Hw, Hl. simpl.
  eexists; split; [reflexivity|]. intros i j. simpl.
  rewrite !pixel_setitem_scalar. simpl.
  destruct (shape_np_zeros _ _ _ Hz) as [-> ->].
  rewrite (pixel_np_zeros _ _ _ i j Hz).
  eval_slices. unfold in_square, in_slice. simpl. by_comparisons.
Qed.

(** C1 (as amended): on the all-zero 100 x 100 sub-terrain with
    [gap_size = 1.0], [platform_size = 3.0] and [horizontal_scale = 0.1],
    [gap_terrain] returns; the central square of side [platform_size]
    (30 pixels, [[35, 65)] on both axes) is 0; and the pixels at -1000 are
    exactly a square frame of width [gap_size] (10 pixels) centred on the
    terrain centre, between an inner zero square of half-width [a >= 15]
    that holds the platform square and the untouched zero exterior. *)
Theorem C1_gap_terrain_moat vs :
  exists t0 t (a : Z),
    SubTerrain.new 100 100 vs (1 # 10) = Some t0 /\
    gap_terrain t0 1 3 = Some t /\
    15 <= a /\
    (forall i j,
       in_square 35 65 i j = true ->
       pixel (SubTerrain.height_field_raw t) i j = Some 0) /\
    (forall i j,
       pixel (SubTerrain.height_field_raw t) i j =
         if in_square 0 100 i j
         then Some (if in_square (50 - (a + 10)) (50 + (a + 10)) i j
                       && negb (in_square (50 - a) (50 + a) i j)
                    then -1000 else 0)
         else None).
Proof.
  destruct (SubTerrain_new_is_Some 100 100 vs (1 # 10)) as [t0 Hnew];
    [lia | lia |].
  destruct (gap_terrain_example_pixels vs t0 Hnew) as (t & Hgap & Hpix).
  exists t0, t, 35.
  split; [exact Hnew|]. split; [exact Hgap|]. split; [lia|].
  split; [|exact Hpix].
  intros i j Hin. rewrite Hpix. revert Hin. unfold in_square.
  by_comparisons.
Qed.

(** C1 (as stated) fails: pixel (34, 50) is outside the 30-pixel platform
    square and inside the square of half-width 40 around the centre, yet it
    is 0 after the call. *)
Lemma C1_ring_counterexample :
  ~ (forall t0 t,
       SubTerrain.new 100 100 (5 # 1000) (1 # 10) = Some t0 ->
       gap_terrain t0 1 3 = Some t ->
       (forall i j,
          in_square 35 65 i j = true ->
          pixel (SubTerrain.height_field_raw t) i j = Some 0) /\
       (forall i j,
          in_square 10 90 i j = true -> in_square 35 65 i j = false ->
          pixel (SubTerrain.height_field_raw t) i j = Some (-1000))).
Proof.
  intros H.
  destruct (SubTerrain_new_is_Some 100 100 (5 # 1000) (1 # 10))
    as [t0 Hnew]; [lia | lia |].
  destruct (gap_terrain_example_pixels _ t0 Hnew) as (t & Hgap & Hpix).
  destruct (H t0 t Hnew Hgap) as [_ Hring].
  specialize (Hring 34%nat 50%nat eq_refl eq_refl).
  rewrite Hpix in Hring. discriminate Hring.
Qed.

(** C5: on an all-zero sub-terrain that holds the platform square (at least
    40 pixels long and wide), [pit_terrain] with [depth = 1.0],
    [platform_size = 4.0], [vertical_scale = 0.005] and
    [horizontal_scale = 0.1] returns; the centred square of side
    [2 * int(4.0 / 0.1 / 2) = 40] pixels is at [-int(1.0 / 0.005) = -200]
    and every other pixel is still 0: no ring is carved. *)
Theorem C5_pit_terrain_sunken_square (width length : Z) :
  40 <= length -> 40 <= width ->
  exists t0 t,
    SubTerrain.new width length (5 # 1000) (1 # 10) = Some t0 /\
    pit_terrain t0 1 4 = Some t /\
    2 * py_int (4 / (1 # 10) / 2) = 40 /\
    - py_int (1 / (5 # 1000)) = -200 /\
    forall i j,
      pixel (SubTerrain.height_field_raw t) i j =
        if in_rect 0 length 0 width i j
        then Some (if in_rect (length / 2 - 20) (length / 2 + 20)
                              (width / 2 - 20) (width / 2 + 20) i j
                   then -200 else 0)
        else None.
Proof.
  intros Hlen Hwid.
  destruct (SubTerrain_new_is_Some width length (5 # 1000) (1 # 10))
    as [t0 Hnew]; [lia | lia |].
  exists t0.
  apply SubTerrain_new_Some in Hnew as Hf.
  destruct Hf as (Hw & Hl & Hvs & Hhs & Hz).
  unfold pit_terrain. rewrite Hvs, Hhs, Hw, Hl.
  change (py_int <$> py_truediv 1 (5 # 1000)) with (Some 200).
  change (py_truediv 4 (1 # 10)) with (Some (4 / (1 # 10))%Q).
  change (py_int <$> py_truediv (4 / (1 # 10)) 2) with (Some 20).
  simpl. eexists. split; [exact Hnew|]. split; [reflexivity|].
  split; [reflexivity|]. split; [reflexivity|].
  intros i j. simpl. rewrite pixel_setitem_scalar.
  destruct (shape_np_zeros _ _ _ Hz) as [-> ->].
  rewrite (pixel_np_zeros _ _ _ i j Hz).
  assert (2 * (length / 2) <= length < 2 * (length / 2) + 2)
    by (pose proof (Z.div_mod length 2); pose proof (Z.mod_pos_bound length 2);
        lia).
  assert (2 * (width / 2) <= width < 2 * (width / 2) + 2)
    by (pose proof (Z.div_mod width 2); pose proof (Z.mod_pos_bound width 2);
        lia).
  change (py_int (4 / (1 # 10) / 2)) with 20.
  rewrite !in_slice_fits by lia.
  change (wrap_int16 (- (200))) with (-200).
  unfold in_rect.
  generalize dependent (length / 2). generalize dependent (width / 2).
  intros; by_comparisons.
Qed.

(** The theorem at an 80 x 80 sub-terrain: the centre pixel is sunk, a corner
    pixel is not. *)
Lemma C5_pit_terrain_witness :
  exists t0 t,
    SubTerrain.new 80 80 (5 # 1000) (1 # 10) = Some t0 /\
    pit_terrain t0 1 4 = Some t /\
    pixel (SubTerrain.height_field_raw t) 40 40 = Some (-200) /\
    pixel (SubTerrain.height_field_raw t) 3 3 = Some 0.
Proof.
  destruct (C5_pit_terrain_sunken_square 80 80 ltac:(lia) ltac:(lia))
    as (t0 & t & Hnew & Hpit & _ & _ & Hpix).
  exists t0, t. split; [exact Hnew|]. split; [exact Hpit|].
  split; rewrite Hpix; reflexivity.
Defined.

(** ** Parameters derived from the difficulty *)

(** C3 (as amended): for [0 <= d1 <= d2 <= 1] the slope, the step height, the
    obstacle height, the stone distance, the gap size and the pit depth do
    not decrease from [d1] to [d2], and the stepping-stone size does not
    increase. *)
Theorem C3_difficulty_parameters_monotone (d1 d2 : Q) :
  (0 <= d1)%Q -> (d1 <= d2)%Q -> (d2 <= 1)%Q ->
  (slope_of d1 <= slope_of d2)%Q /\
  (step_height_of d1 <= step_height_of d2)%Q /\
  (discrete_obstacles_height_of d1 <= discrete_obstacles_height_of d2)%Q /\
  (stone_distance_of d1 <= stone_distance_of d2)%Q /\
  (gap_size_of d1 <= gap_size_of d2)%Q /\
  (pit_depth_of d1 <= pit_depth_of d2)%Q /\
  (stepping_stones_size_of d2 <= stepping_stones_size_of d1)%Q.
Proof.
  intros H0 H12 H1.
  unfold slope_of, step_height_of, discrete_obstacles_height_of,
    gap_size_of, pit_depth_of, stepping_stones_size_of.
  repeat split; try lra.
  unfold stone_distance_of.
  destruct (Qeq_bool d1 0) eqn:E1, (Qeq_bool d2 0) eqn:E2; try lra.
  apply Qeq_bool_neq in E1. apply Qeq_bool_iff in E2. lra.
Qed.

Lemma C3_difficulty_parameters_witness :
  (slope_of (1 # 4) <= slope_of (3 # 4))%Q /\
  (step_height_of (1 # 4) <= step_height_of (3 # 4))%Q /\
  (discrete_obstacles_height_of (1 # 4)
   <= discrete_obstacles_height_of (3 # 4))%Q /\
  (stone_distance_of (1 # 4) <= stone_distance_of (3 # 4))%Q /\
  (gap_size_of (1 # 4) <= gap_size_of (3 # 4))%Q /\
  (pit_depth_of (1 # 4) <= pit_depth_of (3 # 4))%Q /\
  (stepping_stones_size_of (3 # 4) <= stepping_stones_size_of (1 # 4))%Q.
Proof.
  apply (C3_difficulty_parameters_monotone (1 # 4) (3 # 4)); lra.
Defined.

(** C3 (as stated) fails: the stepping-stone size at difficulty 0 is 1.575
    and at difficulty 1 it is 0.075. *)
Lemma C3_stepping_stones_counterexample :
  ~ (forall d1 d2 : Q,
       (0 <= d1)%Q -> (d1 <= d2)%Q -> (d2 <= 1)%Q ->
       (slope_of d1 <= slope_of d2)%Q /\
       (step_height_of d1 <= step_height_of d2)%Q /\
       (discrete_obstacles_height_of d1
        <= discrete_obstacles_height_of d2)%Q /\
       (stepping_stones_size_of d1 <= stepping_stones_size_of d2)%Q /\
       (stone_distance_of d1 <= stone_distance_of d2)%Q /\
       (gap_size_of d1 <= gap_size_of d2)%Q /\
       (pit_depth_of d1 <= pit_depth_of d2)%Q).
Proof.
  intros H.
  destruct (H 0%Q 1%Q) as (_ & _ & _ & Hstones & _); try lra.
  revert Hstones. unfold stepping_stones_size_of. lra.
Qed.

(** ** Proportion table *)

Lemma np_sum_snoc l x : np_sum (l ++ [x]) = (np_sum l + x)%Q.
Proof. unfold np_sum. by rewrite fold_left_app. Qed.

Lemma cumulative_proportions_lookup props i :
  (i < length props)%nat ->
  cumulative_proportions props !! i = Some (np_sum (take (i + 1) props)).
Proof.
  intros Hi. unfold cumulative_proportions.
  rewrite list_lookup_fmap, lookup_seq_lt by done. done.
Qed.

Lemma length_cumulative_proportions props :
  length (cumulative_proportions props) = length props.
Proof. unfold cumulative_proportions. by rewrite length_fmap, length_seq. Qed.

(** Consecutive thresholds of a non-negative proportion vector. *)
Lemma cumulative_proportions_step props i :
  Forall (fun p => 0 <= p)%Q props ->
  (S i < length props)%nat ->
  exists a b,
    cumulative_proportions props !! i = Some a /\
    cumulative_proportions props !! S i = Some b /\
    (a <= b)%Q.
Proof.
  intros Hpos Hi.
  destruct (lookup_lt_is_Some_2 props (S i) Hi) as [x Hx].
  exists (np_sum (take (i + 1) props)), (np_sum (take (S i + 1) props)).
  rewrite !cumulative_proportions_lookup by lia.
  split; [done|]. split; [done|].
  replace (S i + 1)%nat with (S (i + 1)) by lia.
  rewrite (take_S_r _ _ x) by (by replace (i + 1)%nat with (S i) by lia).
  rewrite np_sum_snoc.
  assert (0 <= x)%Q by (eapply (proj1 (Forall_lookup _ _) Hpos); eauto).
  lra.
Qed.



(** ** Mesh augmentation *)

Lemma block_triangles_length :
  length (omap as_triangle (permutations (py_range 8) 3)) = 336%nat.
Proof. vm_compute. reflexivity. Qed.

Lemma block_triangles_NoDup :
  NoDup (omap as_triangle (permutations (py_range 8) 3)).
Proof.
  apply (bool_decide_unpack
           (NoDup (A:=Z * Z * Z)
              (omap as_triangle (permutations (py_range 8) 3)))).
  vm_compute. exact I.
Qed.

Lemma block_triangles_sound t :
  t ∈ omap as_triangle (permutations (py_range 8) 3) ->
  distinct_corners t = true.
Proof.
  intros Hin. apply list_elem_of_In in Hin. revert t Hin.
  apply forallb_forall. vm_compute. reflexivity.
Qed.

Lemma block_triangles_complete t :
  distinct_corners t = true ->
  t ∈ omap as_triangle (permutations (py_range 8) 3).
Proof.
  destruct t as [[a b] c]. intros Hd.
  assert (Hall :
    forallb (fun a => forallb (fun b => forallb (fun c =>
      implb (distinct_corners (a, b, c))
            (bool_decide
               ((a, b, c) ∈@{list (Z * Z * Z)}
                  omap as_triangle (permutations (py_range 8) 3))))
      (py_range 8)) (py_range 8)) (py_range 8) = true)
    by (vm_compute; reflexivity).
  assert (Hin : forall z, 0 <= z < 8 -> In z (py_range 8)).
  { intros z Hz.
    assert (z = 0 \/ z = 1 \/ z = 2 \/ z = 3 \/ z = 4 \/ z = 5 \/ z = 6
            \/ z = 7) as Hcases by lia.
    repeat (destruct Hcases as [->|Hcases];
            [repeat (first [left; reflexivity | right])|]).
    subst. repeat (first [left; reflexivity | right]). }
  unfold distinct_corners in Hd.
  repeat (apply andb_true_iff in Hd as [Hd ?]).
  rewrite forallb_forall in Hall.
  specialize (Hall a (Hin a ltac:(lia))). rewrite forallb_forall in Hall.
  specialize (Hall b (Hin b ltac:(lia))). rewrite forallb_forall in Hall.
  specialize (Hall c (Hin c ltac:(lia))).
  unfold distinct_corners in Hall.
  repeat match goal with
    | H : (_ <=? _) = true |- _ => rewrite H in Hall; clear H
    | H : (_ <? _) = true |- _ => rewrite H in Hall; clear H
    | H : negb _ = true |- _ => rewrite H in Hall; clear H
    end.
  simpl in Hall. by apply bool_decide_eq_true in Hall.
Qed.

Lemma triangle_add_no_wrap a b c n :
  distinct_corners (a, b, c) = true ->
  0 <= n -> n + 8 <= 4294967296 ->
  triangle_add (a, b, c) n = (a + n, b + n, c + n).
Proof.
  unfold distinct_corners, triangle_add, wrap_uint32. intros Hd Hn Hmax.
  repeat (apply andb_true_iff in Hd as [Hd ?]).
  repeat match goal with
    | H : (_ <=? _) = true |- _ => apply Z.leb_le in H
    | H : (_ <? _) = true |- _ => apply Z.ltb_lt in H
    end.
  rewrite !Z.mod_small by lia. done.
Qed.

(** C2 (as amended): when the new indices fit [uint32], [add_block] appends
    to the vertex buffer exactly the 8 corners of the prism of footprint
    [s1 x s2] and height [h] based at [z = 0], and to the triangle buffer
    exactly 336 pairwise different index triples: every ordered triple of
    distinct local corner indices [0..7], each index offset by the vertex
    count before the append.  Both buffers keep their old content as a
    prefix. *)
Theorem C2_add_block_appends (self : Terrain.t) (x0 y0 s1 s2 h : Q) :
  Z.of_nat (length (Terrain.vertices self)) + 8 <= 4294967296 ->
  let n := Z.of_nat (length (Terrain.vertices self)) in
  let self' := add_block self x0 y0 s1 s2 h in
  Terrain.vertices self'
    = Terrain.vertices self ++ prism_corners x0 y0 s1 s2 h /\
  length (prism_corners x0 y0 s1 s2 h) = 8%nat /\
  exists new : list triangle,
    Terrain.triangles self' = Terrain.triangles self ++ new /\
    length new = 336%nat /\
    NoDup new /\
    forall a b c,
      (a, b, c) ∈ new <-> distinct_corners (a - n, b - n, c - n) = true.
Proof.
  intros Hfit n self'. split; [reflexivity|]. split; [reflexivity|].
  eexists. split; [reflexivity|].
  assert (Hn : 0 <= n) by (unfold n; lia).
  split; [by rewrite length_fmap, block_triangles_length|].
  split.
  - apply NoDup_fmap_2_strong; [|apply block_triangles_NoDup].
    intros [[a b] c] [[a' b'] c'] Hx Hy.
    apply block_triangles_sound in Hx, Hy.
    fold n. rewrite !triangle_add_no_wrap by done.
    intros [= ? ? ?]. f_equal; [f_equal|]; lia.
  - intros a b c. fold n. rewrite list_elem_of_fmap. split.
    + intros ([[a' b'] c'] & Heq & Hin).
      apply block_triangles_sound in Hin as Hd.
      rewrite triangle_add_no_wrap in Heq by done.
      injection Heq as -> -> ->.
      by replace (a' + n - n) with a' by lia;
         replace (b' + n - n) with b' by lia;
         replace (c' + n - n) with c' by lia.
    + intros Hd. exists (a - n, b - n, c - n). split.
      * rewrite triangle_add_no_wrap by done. f_equal; [f_equal|]; lia.
      * by apply block_triangles_complete.
Qed.

Lemma C2_add_block_witness :
  let self' := add_block demo_terrain 0 0 (15 # 100) (3 # 10) (1 # 10) in
  Terrain.vertices self'
    = Terrain.vertices demo_terrain
      ++ prism_corners 0 0 (15 # 100) (3 # 10) (1 # 10) /\
  length (prism_corners 0 0 (15 # 100) (3 # 10) (1 # 10)) = 8%nat /\
  exists new : list triangle,
    Terrain.triangles self' = Terrain.triangles demo_terrain ++ new /\
    length new = 336%nat /\
    NoDup new /\
    forall a b c,
      (a, b, c) ∈ new <-> distinct_corners (a - 0, b - 0, c - 0) = true.
Proof.
  apply (C2_add_block_appends demo_terrain 0 0 (15 # 100) (3 # 10) (1 # 10)).
  vm_compute. discriminate.
Defined.

(** C2 (as stated) fails: one block on a mesh without triangles leaves 336
    triangles, not 56. *)
Lemma C2_triangle_count_counterexample :
  length (Terrain.triangles
            (add_block demo_terrain 0 0 (15 # 100) (3 # 10) (1 # 10)))
  <> (length (Terrain.triangles demo_terrain) + 56)%nat.
Proof. vm_compute. discriminate. Qed.

(** ** Dispatch of make_terrain *)

Lemma py_lt_true a b : py_lt a b = true <-> (a < b)%Q.
Proof.
  unfold py_lt. rewrite negb_true_iff, <- not_true_iff_false, Qle_bool_iff.
  split; [apply Qnot_le_lt | apply Qlt_not_le].
Qed.

Lemma py_lt_false a b : py_lt a b = false <-> (b <= a)%Q.
Proof.
  unfold py_lt. rewrite negb_false_iff, Qle_bool_iff. done.
Qed.

(** On a table of 8 thresholds whose thresholds 2 and 3 are in order, the
    chain of [make_terrain] is the first-threshold rule. *)
Lemma make_terrain_branch_first_below p0 p1 p2 p3 p4 p5 p6 p7 choice d :
  (p2 <= p3)%Q ->
  make_terrain_branch [p0; p1; p2; p3; p4; p5; p6; p7] choice d
  = Some (dispatch_by_first_threshold
            [p0; p1; p2; p3; p4; p5; p6; p7] choice d).
Proof.
  intros H23.
  unfold make_terrain_branch, dispatch_by_first_threshold. simpl.
  destruct (py_lt choice p0) eqn:E0; [reflexivity|]. simpl.
  destruct (py_lt choice p1) eqn:E1; [reflexivity|]. simpl.
  destruct (py_lt choice p2) eqn:E2, (py_lt choice p3) eqn:E3; simpl;
    try reflexivity.
  { apply py_lt_true in E2. apply py_lt_false in E3. lra. }
  destruct (py_lt choice p4) eqn:E4; [reflexivity|]. simpl.
  destruct (py_lt choice p5) eqn:E5; [reflexivity|]. simpl.
  destruct (py_lt choice p6) eqn:E6; [reflexivity|]. simpl.
  destruct (py_lt choice p7) eqn:E7; reflexivity.
Qed.

Lemma make_terrain_branch_pit p0 p1 p2 p3 p4 p5 p6 p7 choice d :
  (p2 <= p3)%Q ->
  make_terrain_branch [p0; p1; p2; p3; p4; p5; p6; p7] choice d
    = Some (call_pit (pit_depth_of d) 4)
  <-> (forall (i : nat) p,
         [p0; p1; p2; p3; p4; p5; p6; p7] !! i = Some p -> (p <= choice)%Q).
Proof.
  intros H23. unfold make_terrain_branch. simpl. split.
  - destruct (py_lt choice p0) eqn:E0; [discriminate|]. simpl.
    destruct (py_lt choice p1) eqn:E1; [discriminate|]. simpl.
    destruct (py_lt choice p3) eqn:E3; [discriminate|]. simpl.
    destruct (py_lt choice p4) eqn:E4; [discriminate|]. simpl.
    destruct (py_lt choice p5) eqn:E5; [discriminate|]. simpl.
    destruct (py_lt choice p6) eqn:E6; [discriminate|]. simpl.
    destruct (py_lt choice p7) eqn:E7; [discriminate|]. intros _.
    apply py_lt_false in E0, E1, E3, E4, E5, E6, E7.
    intros i p Hp.
    do 8 (destruct i as [|i]; [injection Hp as <-; lra|]).
    discriminate Hp.
  - intros Hall.
    assert (E : forall (i : nat) p,
               [p0; p1; p2; p3; p4; p5; p6; p7] !! i = Some p ->
               py_lt choice p = false)
      by (intros i p Hp; apply py_lt_false; eauto).
    rewrite (E 0%nat p0), (E 1%nat p1), (E 3%nat p3), (E 4%nat p4),
      (E 5%nat p5), (E 6%nat p6), (E 7%nat p7) by reflexivity.
    reflexivity.
Qed.

(** C4: on the table of an 8-element proportion vector with non-negative
    entries, [make_terrain] takes exactly the branch of the first threshold,
    in index order, that [choice] is strictly below (with the slope negated
    below half of threshold 0 and the step height negated below
    threshold 2), and it takes the pit branch exactly when [choice] is at
    least every threshold. *)
Theorem C4_make_terrain_dispatch (props : list Q) (choice difficulty : Q) :
  length props = 8%nat ->
  Forall (fun p => 0 <= p)%Q props ->
  let proportions := cumulative_proportions props in
  make_terrain_branch proportions choice difficulty
    = Some (dispatch_by_first_threshold proportions choice difficulty) /\
  (make_terrain_branch proportions choice difficulty
     = Some (call_pit (pit_depth_of difficulty) 4)
   <-> forall (i : nat) p, proportions !! i = Some p -> (p <= choice)%Q).
Proof.
  intros Hlen Hpos proportions.
  destruct (cumulative_proportions_step props 2 Hpos ltac:(lia))
    as (a & b & Ha & Hb & Hab).
  fold proportions in Ha, Hb.
  assert (Hl : length proportions = 8%nat)
    by (unfold proportions; by rewrite length_cumulative_proportions).
  clearbody proportions.
  do 8 (destruct proportions as [|? proportions]; [discriminate Hl|]).
  destruct proportions; [|discriminate Hl].
  injection Ha as ->. injection Hb as ->.
  split.
  - by apply make_terrain_branch_first_below.
  - by apply make_terrain_branch_pit.
Qed.

Lemma C4_make_terrain_dispatch_witness :
  let proportions :=
    cumulative_proportions
      [1 # 8; 1 # 8; 1 # 8; 1 # 8; 1 # 8; 1 # 8; 1 # 8; 1 # 8]%Q in
  make_terrain_branch proportions (3 # 10) (1 # 2)
    = Some (dispatch_by_first_threshold proportions (3 # 10) (1 # 2)) /\
  (make_terrain_branch proportions (3 # 10) (1 # 2)
     = Some (call_pit (pit_depth_of (1 # 2)) 4)
   <-> forall (i : nat) p, proportions !! i = Some p -> (p <= 3 # 10)%Q).
Proof.
  apply (C4_make_terrain_dispatch
           [1 # 8; 1 # 8; 1 # 8; 1 # 8; 1 # 8; 1 # 8; 1 # 8; 1 # 8]%Q
           (3 # 10) (1 # 2)).
  - reflexivity.
  - repeat constructor; discriminate.
Defined.

(** ** Placing a sub-terrain *)

Lemma py_truediv_Some a b :
  ~ (b == 0)%Q -> py_truediv a b = Some (a / b)%Q.
Proof.
  intros Hb. unfold py_truediv.
  destruct (Qeq_bool b 0) eqn:E; [|done].
  by apply Qeq_bool_iff in E.
Qed.

Lemma py_truediv_inv a b q :
  py_truediv a b = Some q -> q = (a / b)%Q /\ ~ (b == 0)%Q.
Proof.
  unfold py_truediv. destruct (Qeq_bool b 0) eqn:E; [done|].
  intros [= <-]. split; [done|]. by apply Qeq_bool_neq.
Qed.

(** What a returning call of [add_terrain_to_map] computed. *)
Lemma add_terrain_to_map_Some self terrain row col self' :
  add_terrain_to_map self terrain row col = Some self' ->
  exists hf m origins,
    setitem_array (Terrain.height_field_raw self)
      (Terrain.border self + row * Terrain.length_per_env_pixels self)
      (Terrain.border self + (row + 1) * Terrain.length_per_env_pixels self)
      (Terrain.border self + col * Terrain.width_per_env_pixels self)
      (Terrain.border self + (col + 1) * Terrain.width_per_env_pixels self)
      (SubTerrain.height_field_raw terrain) = Some hf /\
    ~ (SubTerrain.horizontal_scale terrain == 0)%Q /\
    np_max (getitem_cells (SubTerrain.height_field_raw terrain)
              (window_lo (Terrain.env_length self)
                 (SubTerrain.horizontal_scale terrain))
              (window_hi (Terrain.env_length self)
                 (SubTerrain.horizontal_scale terrain))
              (window_lo (Terrain.env_width self)
                 (SubTerrain.horizontal_scale terrain))
              (window_hi (Terrain.env_width self)
                 (SubTerrain.horizontal_scale terrain))) = Some m /\
    setitem_origin (Terrain.env_origins self) row col
      ((inject_Z row + (1 # 2)) * Terrain.env_length self,
       (inject_Z col + (1 # 2)) * Terrain.env_width self,
       inject_Z m * SubTerrain.vertical_scale terrain)%Q = Some origins /\
    self' = Terrain.set_field_and_origins self hf origins.
Proof.
  unfold add_terrain_to_map, window_lo, window_hi. intros H.
  destruct (setitem_array _ _ _ _ _ _) as [hf|]; [|done]. simpl in H.
  destruct (py_truediv (Terrain.env_length self / 2 - 1) _) as [q1|] eqn:E1;
    [|done].
  apply py_truediv_inv in E1 as [-> Hhs]. simpl in H.
  rewrite !py_truediv_Some in H by done. simpl in H.
  destruct (np_max _) as [m|]; [|done]. simpl in H.
  destruct (setitem_origin _ _ _ _) as [origins|] eqn:Eo; [|done].
  injection H as <-. by exists hf, m, origins.
Qed.

(** The converse: the three steps that may raise decide the call. *)
Lemma add_terrain_to_map_intro self terrain row col hf m origins :
  setitem_array (Terrain.height_field_raw self)
    (Terrain.border self + row * Terrain.length_per_env_pixels self)
    (Terrain.border self + (row + 1) * Terrain.length_per_env_pixels self)
    (Terrain.border self + col * Terrain.width_per_env_pixels self)
    (Terrain.border self + (col + 1) * Terrain.width_per_env_pixels self)
    (SubTerrain.height_field_raw terrain) = Some hf ->
  ~ (SubTerrain.horizontal_scale terrain == 0)%Q ->
  np_max (getitem_cells (SubTerrain.height_field_raw terrain)
            (window_lo (Terrain.env_length self)
               (SubTerrain.horizontal_scale terrain))
            (window_hi (Terrain.env_length self)
               (SubTerrain.horizontal_scale terrain))
            (window_lo (Terrain.env_width self)
               (SubTerrain.horizontal_scale terrain))
            (window_hi (Terrain.env_width self)
               (SubTerrain.horizontal_scale terrain))) = Some m ->
  setitem_origin (Terrain.env_origins self) row col
    ((inject_Z row + (1 # 2)) * Terrain.env_length self,
     (inject_Z col + (1 # 2)) * Terrain.env_width self,
     inject_Z m * SubTerrain.vertical_scale terrain)%Q = Some origins ->
  add_terrain_to_map self terrain row col
  = Some (Terrain.set_field_and_origins self hf origins).
Proof.
  unfold add_terrain_to_map, window_lo, window_hi.
  intros -> Hhs Hm Ho. simpl.
  rewrite !py_truediv_Some by done. simpl.
  rewrite Hm. simpl. rewrite Ho. done.
Qed.

(** Writing the same source into the same slice twice is writing it once. *)
Lemma setitem_array_idem a x_lo x_hi y_lo y_hi src a' :
  setitem_array a x_lo x_hi y_lo y_hi src = Some a' ->
  setitem_array a' x_lo x_hi y_lo y_hi src = Some a'.
Proof.
  unfold setitem_array.
  destruct (_ && _) eqn:Hb; [|done]. intros [= <-]. simpl.
  rewrite Hb. f_equal. f_equal.
  apply list_eq. intros i. rewrite !list_lookup_imap.
  destruct (rows_of a !! i) as [row|]; simpl; [|done].
  destruct (in_slice _ i); [|done].
  f_equal. apply list_eq. intros j. rewrite !list_lookup_imap.
  destruct (row !! j); simpl; [|done].
  by destruct (in_slice _ j).
Qed.

Lemma np_index_lt k n i : np_index k n = Some i -> (i < n)%nat.
Proof.
  unfold np_index.
  destruct (Z.leb_spec 0 k), (Z.ltb_spec k (Z.of_nat n)),
    (Z.leb_spec (- Z.of_nat n) k), (Z.ltb_spec k 0); simpl;
    intros [= <-]; lia.
Qed.

Lemma np_index_nonneg k n :
  0 <= k < Z.of_nat n -> np_index k n = Some (Z.to_nat k).
Proof.
  intros Hk. unfold np_index.
  destruct (Z.leb_spec 0 k), (Z.ltb_spec k (Z.of_nat n)); simpl; try lia.
  done.
Qed.

(** What a returning [origins[i, j] = v] stored. *)
Lemma setitem_origin_Some origins i j v origins' :
  setitem_origin origins i j v = Some origins' ->
  exists i' j' row,
    np_index i (length origins) = Some i' /\
    origins !! i' = Some row /\
    np_index j (length row) = Some j' /\
    origins' = <[i' := <[j' := v]> row]> origins.
Proof.
  unfold setitem_origin. intros H.
  destruct (np_index i _) as [i'|]; [|done]. simpl in H.
  destruct (origins !! i') as [row|] eqn:Hrow; [|done]. simpl in H.
  destruct (np_index j _) as [j'|] eqn:Hj; [|done]. simpl in H.
  injection H as <-. by exists i', j', row.
Qed.

Lemma setitem_origin_idem origins i j v origins' :
  setitem_origin origins i j v = Some origins' ->
  setitem_origin origins' i j v = Some origins'.
Proof.
  intros H.
  apply setitem_origin_Some in H as (i' & j' & row & Hi & Hrow & Hj & ->).
  unfold setitem_origin.
  rewrite length_insert, Hi. simpl.
  rewrite list_lookup_insert_eq by (by eapply lookup_lt_Some). simpl.
  rewrite length_insert, Hj. simpl.
  by rewrite !list_insert_insert_eq.
Qed.

(** C9: a call of [add_terrain_to_map] that returns, repeated with the same
    terrain, row and column on the state it produced, returns that very
    state: the heightfield and the origins are unchanged by the second
    call. *)
Theorem C9_add_terrain_to_map_idempotent
    (self : Terrain.t) (terrain : SubTerrain.t) (row col : Z)
    (self' : Terrain.t) :
  add_terrain_to_map self terrain row col = Some self' ->
  add_terrain_to_map self' terrain row col = Some self' /\
  (forall self'',
     add_terrain_to_map self' terrain row col = Some self'' ->
     Terrain.height_field_raw self'' = Terrain.height_field_raw self' /\
     Terrain.env_origins self'' = Terrain.env_origins self').
Proof.
  intros H.
  apply add_terrain_to_map_Some in H
    as (hf & m & origins & Hhf & Hhs & Hm & Ho & ->).
  assert (Hagain :
    add_terrain_to_map (Terrain.set_field_and_origins self hf origins)
      terrain row col
    = Some (Terrain.set_field_and_origins self hf origins)).
  { apply setitem_array_idem in Hhf. apply setitem_origin_idem in Ho.
    by rewrite (add_terrain_to_map_intro _ terrain row col hf m origins). }
  split; [exact Hagain|].
  intros self'' H''. rewrite Hagain in H''. by injection H'' as <-.
Qed.

Lemma C9_add_terrain_to_map_witness :
  exists self',
    add_terrain_to_map demo_terrain demo_peak 1 0 = Some self' /\
    add_terrain_to_map self' demo_peak 1 0 = Some self' /\
    (forall self'',
       add_terrain_to_map self' demo_peak 1 0 = Some self'' ->
       Terrain.height_field_raw self'' = Terrain.height_field_raw self' /\
       Terrain.env_origins self'' = Terrain.env_origins self').
Proof.
  destruct (add_terrain_to_map demo_terrain demo_peak 1 0) as [self'|] eqn:E;
    [|vm_compute in E; discriminate E].
  exists self'. split; [reflexivity|].
  exact (C9_add_terrain_to_map_idempotent demo_terrain demo_peak 1 0 self' E).
Defined.

(** ** The origin of a cell *)

Lemma fold_left_max_ge cs c : c <= fold_left Z.max cs c.
Proof.
  revert c. induction cs as [|x cs IH]; intros c; simpl; [lia|].
  specialize (IH (Z.max c x)). lia.
Qed.

Lemma fold_left_max_upper cs c v : v ∈ cs -> v <= fold_left Z.max cs c.
Proof.
  revert c. induction cs as [|x cs IH]; intros c Hin; simpl.
  - by apply elem_of_nil in Hin.
  - apply elem_of_cons in Hin as [->|Hin]; [|by apply IH].
    pose proof (fold_left_max_ge cs (Z.max c x)). lia.
Qed.

Lemma fold_left_max_elem cs c :
  fold_left Z.max cs c = c \/ fold_left Z.max cs c ∈ cs.
Proof.
  revert c. induction cs as [|x cs IH]; intros c; simpl; [by left|].
  destruct (IH (Z.max c x)) as [Heq|Hin].
  - rewrite Heq. destruct (Z.max_spec c x) as [[_ ->]|[_ ->]].
    + right. apply elem_of_cons. by left.
    + by left.
  - right. apply elem_of_cons. by right.
Qed.

(** [np.max] returns an element that bounds every element. *)
Lemma np_max_Some cells m :
  np_max cells = Some m -> m ∈ cells /\ forall v, v ∈ cells -> v <= m.
Proof.
  destruct cells as [|c cs]; [done|]. simpl. intros [= <-]. split.
  - destruct (fold_left_max_elem cs c) as [->|Hin].
    + apply elem_of_cons. by left.
    + apply elem_of_cons. by right.
  - intros v [->|Hin]%elem_of_cons.
    + apply fold_left_max_ge.
    + by apply fold_left_max_upper.
Qed.

Lemma np_max_is_Some cells v : v ∈ cells -> is_Some (np_max cells).
Proof. destruct cells; [by intros ?%elem_of_nil|]. simpl. eauto. Qed.

Lemma slice_bound_range k n : 0 <= slice_bound k n <= Z.of_nat n.
Proof. unfold slice_bound. destruct (Z.ltb_spec k 0); lia. Qed.

Lemma elem_of_take_drop {A} (l : list A) (s : Z * Z) x :
  0 <= s.1 ->
  x ∈ take (slice_len s) (drop (Z.to_nat s.1) l)
  <-> exists i, in_slice s i = true /\ l !! i = Some x.
Proof.
  intros Hs. rewrite list_elem_of_lookup. unfold slice_len, in_slice. split.
  - intros [k Hk]. apply lookup_take_Some in Hk as [Hk Hlt].
    rewrite lookup_drop in Hk. exists (Z.to_nat s.1 + k)%nat.
    split; [|done]. apply andb_true_iff.
    split; [apply Z.leb_le | apply Z.ltb_lt]; lia.
  - intros (i & Hi & Hx). apply andb_true_iff in Hi as [H1%Z.leb_le H2%Z.ltb_lt].
    exists (i - Z.to_nat s.1)%nat. apply lookup_take_Some. split; [|lia].
    rewrite lookup_drop. by replace (Z.to_nat s.1 + (i - Z.to_nat s.1))%nat
      with i by lia.
Qed.

(** The cells of a slice are the pixels at the selected indices. *)
Lemma elem_of_getitem_cells a x_lo x_hi y_lo y_hi v :
  v ∈ getitem_cells a x_lo x_hi y_lo y_hi
  <-> exists i j,
        in_slice (slice_indices x_lo x_hi (shape0 a)) i = true /\
        in_slice (slice_indices y_lo y_hi (shape1 a)) j = true /\
        pixel a i j = Some v.
Proof.
  unfold getitem_cells, pixel.
  rewrite list_elem_of_In, in_concat. split.
  - intros (cells & Hcells & Hv).
    apply list_elem_of_In, list_elem_of_fmap in Hcells
      as (row & -> & Hrow).
    apply elem_of_take_drop in Hrow as (i & Hi & Hrow);
      [|apply slice_bound_range].
    apply list_elem_of_In, elem_of_take_drop in Hv as (j & Hj & Hv);
      [|apply slice_bound_range].
    exists i, j. rewrite Hrow. done.
  - intros (i & j & Hi & Hj & Hp).
    destruct (rows_of a !! i) as [row|] eqn:Hrow; [|done]. simpl in Hp.
    exists (take (slice_len (slice_indices y_lo y_hi (shape1 a)))
              (drop (Z.to_nat (slice_indices y_lo y_hi (shape1 a)).1) row)).
    split.
    + apply list_elem_of_In, list_elem_of_fmap. exists row. split; [done|].
      apply elem_of_take_drop; [apply slice_bound_range|]. eauto.
    + apply list_elem_of_In, elem_of_take_drop;
        [apply slice_bound_range|]. eauto.
Qed.

(** With non-negative bounds a slice selects the indices between the bounds
    that exist on the axis. *)
Lemma in_slice_nonneg lo hi n i :
  0 <= lo -> 0 <= hi ->
  in_slice (slice_indices lo hi n) i
  = (lo <=? Z.of_nat i) && (Z.of_nat i <? hi) && (Z.of_nat i <? Z.of_nat n).
Proof.
  unfold in_slice, slice_indices, slice_bound; simpl. intros Hlo Hhi.
  destruct (Z.ltb_spec lo 0), (Z.ltb_spec hi 0); lia.
Qed.

Lemma ndarray_wf_pixel a i j v :
  ndarray_wf a = true -> pixel a i j = Some v ->
  (i < shape0 a)%nat /\ (j < shape1 a)%nat.
Proof.
  unfold ndarray_wf, pixel. intros [Hr Hc]%andb_true_iff Hp.
  apply Nat.eqb_eq in Hr. rewrite forallb_forall in Hc.
  destruct (rows_of a !! i) as [row|] eqn:Hrow; [|done]. simpl in Hp.
  split.
  - apply lookup_lt_Some in Hrow. lia.
  - apply lookup_lt_Some in Hp.
    specialize (Hc row). rewrite Nat.eqb_eq in Hc.
    rewrite <- Hc; [done|]. apply list_elem_of_In.
    by eapply list_elem_of_lookup_2.
Qed.

Lemma ndarray_wf_is_Some a i j :
  ndarray_wf a = true -> (i < shape0 a)%nat -> (j < shape1 a)%nat ->
  is_Some (pixel a i j).
Proof.
  unfold ndarray_wf, pixel. intros [Hr Hc]%andb_true_iff Hi Hj.
  apply Nat.eqb_eq in Hr. rewrite forallb_forall in Hc.
  destruct (lookup_lt_is_Some_2 (rows_of a) i) as [row Hrow]; [lia|].
  rewrite Hrow. simpl. apply lookup_lt_is_Some_2.
  specialize (Hc row). rewrite Nat.eqb_eq in Hc. rewrite Hc; [done|].
  apply list_elem_of_In. by eapply list_elem_of_lookup_2.
Qed.

Lemma grid_layout_unfold self :
  grid_layout self = true ->
  0 <= Terrain.border self /\
  0 <= Terrain.length_per_env_pixels self /\
  0 <= Terrain.width_per_env_pixels self /\
  Z.of_nat (shape0 (Terrain.height_field_raw self))
    = Cfg.num_rows (Terrain.cfg self) * Terrain.length_per_env_pixels self
      + 2 * Terrain.border self /\
  Z.of_nat (shape1 (Terrain.height_field_raw self))
    = Cfg.num_cols (Terrain.cfg self) * Terrain.width_per_env_pixels self
      + 2 * Terrain.border self /\
  Z.of_nat (length (Terrain.env_origins self))
    = Cfg.num_rows (Terrain.cfg self) /\
  (forall i row,
     Terrain.env_origins self !! i = Some row ->
     Z.of_nat (length row) = Cfg.num_cols (Terrain.cfg self)).
Proof.
  unfold grid_layout. intros H.
  repeat (apply andb_true_iff in H as [H ?]).
  repeat match goal with
    | H : (_ <=? _) = true |- _ => apply Z.leb_le in H
    | H : (_ =? _) = true |- _ => apply Z.eqb_eq in H
    end.
  repeat (split; [done|]).
  intros i row Hrow.
  match goal with H : forallb _ _ = true |- _ =>
    rewrite forallb_forall in H; specialize (H row); rewrite Z.eqb_eq in H;
    apply H end.
  apply list_elem_of_In. by eapply list_elem_of_lookup_2.
Qed.

(** The slot of an in-range cell lies inside the map, off the border. *)
Lemma slot_in_grid (b n p k : Z) :
  0 <= b -> 0 <= p -> 0 <= k < n ->
  0 <= b + k * p /\ b + k * p <= b + (k + 1) * p /\
  b + (k + 1) * p <= n * p + b.
Proof. intros. nia. Qed.

(** The copy of a sub-terrain whose shape is that of the slot succeeds. *)
Lemma setitem_array_slot_is_Some self (src : ndarray) row col :
  grid_layout self = true ->
  0 <= row < Cfg.num_rows (Terrain.cfg self) ->
  0 <= col < Cfg.num_cols (Terrain.cfg self) ->
  is_Some
    (setitem_array (Terrain.height_field_raw self)
       (Terrain.border self + row * Terrain.length_per_env_pixels self)
       (Terrain.border self + (row + 1) * Terrain.length_per_env_pixels self)
       (Terrain.border self + col * Terrain.width_per_env_pixels self)
       (Terrain.border self + (col + 1) * Terrain.width_per_env_pixels self)
       src)
  <-> broadcastable (shape0 src)
        (Z.to_nat (Terrain.length_per_env_pixels self)) = true /\
      broadcastable (shape1 src)
        (Z.to_nat (Terrain.width_per_env_pixels self)) = true.
Proof.
  intros (Hb & HL & HW & H0 & H1 & _)%grid_layout_unfold Hrow Hcol.
  rewrite setitem_array_is_Some.
  pose proof (slot_in_grid (Terrain.border self)
                (Cfg.num_rows (Terrain.cfg self))
                (Terrain.length_per_env_pixels self) row Hb HL Hrow).
  pose proof (slot_in_grid (Terrain.border self)
                (Cfg.num_cols (Terrain.cfg self))
                (Terrain.width_per_env_pixels self) col Hb HW Hcol).
  rewrite !slice_len_fits by lia.
  replace (Terrain.border self + (row + 1) * Terrain.length_per_env_pixels self
           - (Terrain.border self + row * Terrain.length_per_env_pixels self))
    with (Terrain.length_per_env_pixels self) by lia.
  replace (Terrain.border self + (col + 1) * Terrain.width_per_env_pixels self
           - (Terrain.border self + col * Terrain.width_per_env_pixels self))
    with (Terrain.width_per_env_pixels self) by lia.
  done.
Qed.

Lemma setitem_origin_in_range origins i j v (rows cols : Z) :
  Z.of_nat (length origins) = rows ->
  (forall k row, origins !! k = Some row -> Z.of_nat (length row) = cols) ->
  0 <= i < rows -> 0 <= j < cols ->
  exists origins',
    setitem_origin origins i j v = Some origins' /\
    origin_at origins' (Z.to_nat i) (Z.to_nat j) = Some v.
Proof.
  intros Hrows Hcols Hi Hj. unfold setitem_origin, origin_at.
  rewrite np_index_nonneg by lia. simpl.
  destruct (lookup_lt_is_Some_2 origins (Z.to_nat i)) as [row Hrow]; [lia|].
  rewrite Hrow. simpl.
  specialize (Hcols _ _ Hrow).
  rewrite np_index_nonneg by lia. simpl.
  eexists. split; [done|].
  rewrite list_lookup_insert_eq by lia. simpl.
  rewrite list_lookup_insert_eq by lia. done.
Qed.

(** C6: for an in-range cell of a terrain object laid out by [__init__], a
    sub-terrain of the slot's shape and a window [[x1, x2) x [y1, y2)] (with
    [x1 = int((env_length/2 - 1)/horizontal_scale)] and so on) that starts
    inside the sub-terrain, [add_terrain_to_map] returns and leaves in
    [env_origins[row, col]] the triple [((row + 0.5) * env_length,
    (col + 0.5) * env_width, m * vertical_scale)], where [m] is the maximum
    raw height over the window: it is attained in the window and bounds
    every pixel of the window.  In particular [m] is the height of a peak
    of the window. *)
Theorem C6_env_origin (self : Terrain.t) (terrain : SubTerrain.t)
    (row col : Z) :
  let hf := SubTerrain.height_field_raw terrain in
  let hs := SubTerrain.horizontal_scale terrain in
  let x1 := window_lo (Terrain.env_length self) hs in
  let x2 := window_hi (Terrain.env_length self) hs in
  let y1 := window_lo (Terrain.env_width self) hs in
  let y2 := window_hi (Terrain.env_width self) hs in
  let in_window (i j : nat) :=
    x1 <= Z.of_nat i < x2 /\ y1 <= Z.of_nat j < y2 in
  grid_layout self = true ->
  0 <= row < Cfg.num_rows (Terrain.cfg self) ->
  0 <= col < Cfg.num_cols (Terrain.cfg self) ->
  ndarray_wf hf = true ->
  Z.of_nat (shape0 hf) = Terrain.length_per_env_pixels self ->
  Z.of_nat (shape1 hf) = Terrain.width_per_env_pixels self ->
  ~ (hs == 0)%Q ->
  0 <= x1 < x2 -> x1 < Z.of_nat (shape0 hf) ->
  0 <= y1 < y2 -> y1 < Z.of_nat (shape1 hf) ->
  exists self' m,
    add_terrain_to_map self terrain row col = Some self' /\
    origin_at (Terrain.env_origins self') (Z.to_nat row) (Z.to_nat col)
      = Some ((inject_Z row + (1 # 2)) * Terrain.env_length self,
              (inject_Z col + (1 # 2)) * Terrain.env_width self,
              inject_Z m * SubTerrain.vertical_scale terrain)%Q /\
    (exists i j, in_window i j /\ pixel hf i j = Some m) /\
    (forall i j v, in_window i j -> pixel hf i j = Some v -> v <= m) /\
    (forall i j peak,
       in_window i j -> pixel hf i j = Some peak ->
       (forall i' j' v,
          in_window i' j' -> pixel hf i' j' = Some v -> v <= peak) ->
       m = peak).
Proof.
  intros hf hs x1 x2 y1 y2 in_window Hlay Hrow Hcol Hwf Hs0 Hs1 Hhs
    Hx Hxn Hy Hyn.
  destruct (proj2 (setitem_array_slot_is_Some self hf row col Hlay Hrow Hcol))
    as [hf' Hcopy].
  { unfold broadcastable. rewrite <- Hs0, <- Hs1, !Nat2Z.id, !Nat.eqb_refl.
    done. }
  destruct (ndarray_wf_is_Some hf (Z.to_nat x1) (Z.to_nat y1) Hwf)
    as [v0 Hv0]; [lia | lia |].
  assert (Hcells :
    forall v,
      v ∈ getitem_cells hf x1 x2 y1 y2
      <-> exists i j, in_window i j /\ pixel hf i j = Some v).
  { intros v. rewrite elem_of_getitem_cells. unfold in_window.
    split; intros (i & j & H).
    - destruct H as (Hi & Hj & Hp). exists i, j. split; [|done].
      rewrite in_slice_nonneg in Hi, Hj by lia. lia.
    - destruct H as ([Hi Hj] & Hp). exists i, j.
      destruct (ndarray_wf_pixel _ _ _ _ Hwf Hp).
      rewrite !in_slice_nonneg by lia. repeat split; [lia | lia | done]. }
  destruct (np_max_is_Some (getitem_cells hf x1 x2 y1 y2) v0) as [m Hm].
  { apply Hcells. exists (Z.to_nat x1), (Z.to_nat y1).
    unfold in_window. split; [lia|done]. }
  apply grid_layout_unfold in Hlay as (_ & _ & _ & _ & _ & Ho & Hoc).
  destruct (setitem_origin_in_range (Terrain.env_origins self) row col
              ((inject_Z row + (1 # 2)) * Terrain.env_length self,
               (inject_Z col + (1 # 2)) * Terrain.env_width self,
               inject_Z m * SubTerrain.vertical_scale terrain)%Q
              _ _ Ho Hoc Hrow Hcol) as (origins & Hset & Hat).
  exists (Terrain.set_field_and_origins self hf' origins), m.
  split; [by apply (add_terrain_to_map_intro _ _ _ _ hf' m origins)|].
  split; [exact Hat|].
  apply np_max_Some in Hm as [Hin Hmax].
  split; [by apply Hcells|].
  assert (Hbound : forall i j v,
            in_window i j -> pixel hf i j = Some v -> v <= m).
  { intros i j v Hw Hp. apply Hmax, Hcells. eauto. }
  split; [exact Hbound|].
  intros i j peak Hw Hp Hpeak.
  apply Hcells in Hin as (i' & j' & Hw' & Hp').
  specialize (Hpeak _ _ _ Hw' Hp'). specialize (Hbound _ _ _ Hw Hp). lia.
Qed.

Lemma C6_env_origin_witness :
  exists self',
    add_terrain_to_map demo_terrain demo_peak 1 0 = Some self' /\
    origin_at (Terrain.env_origins self') 1 0
      = Some ((inject_Z 1 + (1 # 2)) * 4, (inject_Z 0 + (1 # 2)) * 4,
              inject_Z 7 * (1 # 2))%Q.
Proof.
  destruct (C6_env_origin demo_terrain demo_peak 1 0)
    as (self' & m & Hadd & Hat & _ & _ & Hpeak);
    [reflexivity | split; [lia | reflexivity] | split; [lia | reflexivity]
    | reflexivity | reflexivity | reflexivity | discriminate
    | vm_compute; intuition discriminate | reflexivity
    | vm_compute; intuition discriminate | reflexivity |].
  exists self'. split; [exact Hadd|].
  rewrite (Hpeak 1%nat 1%nat 7) in Hat.
  - exact Hat.
  - vm_compute. intuition discriminate.
  - reflexivity.
  - intros i' j' v [Hi Hj] Hp.
    change (1 <= Z.of_nat i' < 3) in Hi. change (1 <= Z.of_nat j' < 3) in Hj.
    assert (i' = 1 \/ i' = 2)%nat as [-> | ->] by lia;
      assert (j' = 1 \/ j' = 2)%nat as [-> | ->] by lia;
      vm_compute in Hp; injection Hp as <-; lia.
Defined.

(** ** The border of the map *)

Lemma option_fmap_id_if {A} (b : bool) (x : A) (o : option A) :
  b = false -> (fun c => if b then x else c) <$> o = o.
Proof. intros ->. by destruct o. Qed.

(** [add_terrain_to_map] changes no pixel outside the slot of its cell. *)
Lemma add_terrain_to_map_frame self terrain row col self' :
  add_terrain_to_map self terrain row col = Some self' ->
  0 <= Terrain.border self ->
  0 <= Terrain.length_per_env_pixels self ->
  0 <= Terrain.width_per_env_pixels self ->
  0 <= row -> 0 <= col ->
  forall i j,
    in_slot self row col i j = false ->
    pixel (Terrain.height_field_raw self') i j
    = pixel (Terrain.height_field_raw self) i j.
Proof.
  intros H Hb HL HW Hrow Hcol i j Hout.
  apply add_terrain_to_map_Some in H as (hf & m & origins & Hhf & _ & _ & _ & ->).
  apply setitem_array_Some in Hhf as (_ & _ & Hpix). simpl.
  rewrite Hpix. apply option_fmap_id_if.
  apply not_true_is_false. intros [Hi Hj]%andb_true_iff.
  apply in_slice_bounds in Hi; [|nia|nia].
  apply in_slice_bounds in Hj; [|nia|nia].
  unfold in_slot, in_rect in Hout. lia.
Qed.

(** [add_terrain_to_map] keeps every field but the heightfield and the
    origins, and it keeps their shapes. *)
Lemma add_terrain_to_map_fields self terrain row col self' :
  add_terrain_to_map self terrain row col = Some self' ->
  Terrain.cfg self' = Terrain.cfg self /\
  Terrain.num_sub_terrains self' = Terrain.num_sub_terrains self /\
  Terrain.border self' = Terrain.border self /\
  Terrain.length_per_env_pixels self' = Terrain.length_per_env_pixels self /\
  Terrain.width_per_env_pixels self' = Terrain.width_per_env_pixels self /\
  shape0 (Terrain.height_field_raw self')
    = shape0 (Terrain.height_field_raw self) /\
  shape1 (Terrain.height_field_raw self')
    = shape1 (Terrain.height_field_raw self) /\
  length (Terrain.env_origins self') = length (Terrain.env_origins self) /\
  (forall n,
     (forall k r, Terrain.env_origins self !! k = Some r -> length r = n) ->
     forall k r, Terrain.env_origins self' !! k = Some r -> length r = n).
Proof.
  intros H.
  apply add_terrain_to_map_Some in H as (hf & m & origins & Hhf & _ & _ & Ho & ->).
  apply setitem_array_Some in Hhf as (Hs0 & Hs1 & _). simpl.
  apply setitem_origin_Some in Ho as (i' & j' & r0 & _ & Hr0 & _ & ->).
  repeat (split; [done|]). split; [by rewrite length_insert|].
  intros n Hn k r Hk.
  destruct (decide (i' = k)) as [->|Hne].
  - rewrite list_lookup_insert_eq in Hk by (by eapply lookup_lt_Some).
    injection Hk as <-. rewrite length_insert. eauto.
  - rewrite list_lookup_insert_ne in Hk by done. eauto.
Qed.

Lemma grid_layout_fold self :
  0 <= Terrain.border self ->
  0 <= Terrain.length_per_env_pixels self ->
  0 <= Terrain.width_per_env_pixels self ->
  Z.of_nat (shape0 (Terrain.height_field_raw self))
    = Cfg.num_rows (Terrain.cfg self) * Terrain.length_per_env_pixels self
      + 2 * Terrain.border self ->
  Z.of_nat (shape1 (Terrain.height_field_raw self))
    = Cfg.num_cols (Terrain.cfg self) * Terrain.width_per_env_pixels self
      + 2 * Terrain.border self ->
  Z.of_nat (length (Terrain.env_origins self))
    = Cfg.num_rows (Terrain.cfg self) ->
  (forall i row,
     Terrain.env_origins self !! i = Some row ->
     Z.of_nat (length row) = Cfg.num_cols (Terrain.cfg self)) ->
  grid_layout self = true.
Proof.
  intros Hb HL HW H0 H1 Ho Hoc. unfold grid_layout.
  repeat (apply andb_true_iff; split); try lia.
  apply forallb_forall. intros row Hin.
  apply list_elem_of_In, list_elem_of_lookup in Hin as [i Hi].
  apply Z.eqb_eq. eauto.
Qed.

(** The layout survives [add_terrain_to_map]. *)
Lemma add_terrain_to_map_layout self terrain row col self' :
  add_terrain_to_map self terrain row col = Some self' ->
  grid_layout self = true -> grid_layout self' = true.
Proof.
  intros H (Hb & HL & HW & H0 & H1 & Ho & Hoc)%grid_layout_unfold.
  apply add_terrain_to_map_fields in H
    as (Ec & _ & Eb & EL & EW & E0 & E1 & Hlen & Hrows).
  apply grid_layout_fold; rewrite ?Ec, ?Eb, ?EL, ?EW, ?E0, ?E1, ?Hlen;
    try done.
  intros i r Hr.
  destruct (Z.le_gt_cases 0 (Cfg.num_cols (Terrain.cfg self))) as [Hn|Hn].
  - rewrite (Hrows (Z.to_nat (Cfg.num_cols (Terrain.cfg self)))) with (k := i);
      [lia | | done].
    intros k r' Hk. specialize (Hoc k r' Hk). lia.
  - assert (Hsome : is_Some (Terrain.env_origins self !! i)).
    { apply lookup_lt_is_Some. rewrite <- Hlen.
      by eapply lookup_lt_Some. }
    destruct Hsome as [r' Hr']. specialize (Hoc i r' Hr'). lia.
Qed.

(** Placing a sub-terrain on an in-range cell keeps the border flat. *)
Lemma add_terrain_to_map_populating cfg b self terrain row col self' :
  populating cfg b self ->
  0 <= row < Cfg.num_rows cfg -> 0 <= col < Cfg.num_cols cfg ->
  add_terrain_to_map self terrain row col = Some self' ->
  populating cfg b self'.
Proof.
  intros (Hcfg & Hbor & Hlay & Hflat) Hrow Hcol Hadd.
  pose proof (add_terrain_to_map_fields _ _ _ _ _ Hadd)
    as (Ec & _ & Eb & EL & EW & E0 & E1 & _).
  split; [congruence|]. split; [congruence|].
  split; [by eapply add_terrain_to_map_layout|].
  apply grid_layout_unfold in Hlay as (Hb & HL & HW & H0 & H1 & _).
  intros i j Hin.
  assert (Hin' : in_border self i j = true)
    by (revert Hin; unfold in_border; by rewrite E0, E1, Eb).
  rewrite (add_terrain_to_map_frame _ _ _ _ _ Hadd) by
    first [lia | done |
      (subst cfg; revert Hin'; unfold in_border, in_slot, in_rect;
       pose proof (slot_in_grid (Terrain.border self)
                     (Cfg.num_rows (Terrain.cfg self))
                     (Terrain.length_per_env_pixels self) row Hb HL Hrow);
       pose proof (slot_in_grid (Terrain.border self)
                     (Cfg.num_cols (Terrain.cfg self))
                     (Terrain.width_per_env_pixels self) col Hb HW Hcol);
       rewrite H0, H1; lia)].
  by apply Hflat.
Qed.

(** ** The population loops *)

Lemma for_each_inv {S A : Type} (P : S -> Prop) (xs : list A)
    (body : S -> A -> option S) (s s' : S) :
  (forall s x s', x ∈ xs -> P s -> body s x = Some s' -> P s') ->
  P s -> for_each xs body s = Some s' -> P s'.
Proof.
  revert s. induction xs as [|x xs IH]; intros s Hstep Hs; simpl.
  - by intros [= <-].
  - destruct (body s x) as [s1|] eqn:E; [|done]. simpl.
    apply IH.
    + intros s0 y s0' Hy. apply Hstep. by apply elem_of_cons; right.
    + eapply Hstep; [|done|done]. apply elem_of_cons. by left.
Qed.

Lemma elem_of_py_range k n : k ∈ py_range n -> 0 <= k < n.
Proof.
  unfold py_range. intros (i & -> & Hi)%list_elem_of_fmap.
  apply elem_of_seq in Hi. lia.
Qed.

Lemma unravel_index_Some k r c i j :
  unravel_index k r c = Some (i, j) -> 0 <= i < r /\ 0 <= j < c.
Proof.
  unfold unravel_index.
  destruct (Z.leb_spec 0 k), (Z.ltb_spec k (r * c)), (Z.ltb_spec 0 c);
    simpl; try done.
  intros [= <- <-].
  pose proof (Z.mod_pos_bound k c ltac:(lia)).
  pose proof (Z.div_pos k c ltac:(lia) ltac:(lia)).
  split; [|lia]. split; [lia|].
  apply Z.div_lt_upper_bound; lia.
Qed.

Section ModesKeepTheBorder.
Context {ext : Externals}.

Lemma randomized_terrain_populating cfg b self g self' g' :
  populating cfg b self ->
  randomized_terrain self g = Some (self', g') ->
  populating cfg b self'.
Proof.
  intros Hinv Hrun. unfold randomized_terrain in Hrun.
  apply (for_each_inv (fun s => populating cfg b s.1) _ _ _ _) in Hrun;
    [done| |done].
  clear. intros [s g0] k [s' g0'] _ Hinv Hbody. simpl in *.
  destruct (unravel_index _ _ _) as [[i j]|] eqn:Hij; [|done].
  simpl in Hbody.
  destruct (random_uniform 0 1 g0) as [choice g1].
  destruct (random_choice _ g1) as [difficulty g2].
  destruct (make_terrain _ _ _ _) as [[terrain g3]|]; [|done].
  simpl in Hbody.
  destruct (add_terrain_to_map _ _ _ _) as [self1|] eqn:Hadd; [|done].
  injection Hbody as <- <-.
  apply unravel_index_Some in Hij as [Hi Hj].
  destruct Hinv as (Hcfg & ?). rewrite Hcfg in Hi, Hj.
  by eapply add_terrain_to_map_populating.
Qed.

Lemma curiculum_populating cfg b self g self' g' :
  Cfg.tot_cols cfg = None -> Cfg.tot_rows cfg = None ->
  populating cfg b self ->
  curiculum self g = Some (self', g') ->
  populating cfg b self'.
Proof.
  intros Hc Hr Hinv Hrun. unfold curiculum in Hrun.
  pose proof Hinv as (Hcfg & _). rewrite Hcfg, Hc, Hr in Hrun.
  simpl in Hrun.
  apply (for_each_inv (fun s => populating cfg b s.1) _ _ _ _) in Hrun;
    [done| |done].
  clear. intros s0 j s0' Hj%elem_of_py_range Hinv0 Hinner.
  apply (for_each_inv (fun s => populating cfg b s.1) _ _ _ _) in Hinner;
    [done| |done].
  clear -Hj. intros [s g0] i [s' g0'] Hi%elem_of_py_range Hinv Hbody.
  simpl in *.
  destruct (py_int_truediv i _) as [difficulty|]; [|done]. simpl in Hbody.
  destruct (py_int_truediv j _) as [q|]; [|done]. simpl in Hbody.
  destruct (make_terrain _ _ _ _) as [[terrain g3]|]; [|done].
  simpl in Hbody.
  destruct (add_terrain_to_map _ _ _ _) as [s1|] eqn:Hadd; [|done].
  injection Hbody as <- <-.
  by eapply add_terrain_to_map_populating.
Qed.

Lemma selected_terrain_populating cfg b self g self' g' :
  populating cfg b self ->
  selected_terrain self g = Some (self', g') ->
  populating cfg b self'.
Proof.
  intros Hinv Hrun. unfold selected_terrain in Hrun.
  destruct (Cfg.terrain_kwargs_type _) as [terrain_type|]; [|done].
  simpl in Hrun.
  apply (for_each_inv (fun s => populating cfg b s.1) _ _ _ _) in Hrun;
    [done| |done].
  clear. intros [s g0] k [s' g0'] _ Hinv Hbody. simpl in *.
  destruct (unravel_index _ _ _) as [[i j]|]; done.
Qed.
End ModesKeepTheBorder.


Lemma py_int_nonneg q : (0 <= q)%Q -> 0 <= py_int q.
Proof.
  unfold Qle, py_int. simpl. intros H.
  apply Z.quot_pos; lia.
Qed.

Lemma py_int_truediv_nonneg a b :
  (0 <= a)%Q -> (0 < b)%Q -> 0 <= py_int (a / b).
Proof.
  intros Ha Hb. apply py_int_nonneg.
  apply Qle_shift_div_l; [done|]. lra.
Qed.

Lemma np_zeros3_Some r c origins :
  np_zeros3 r c = Some origins ->
  0 <= r /\ 0 <= c /\
  origins = replicate (Z.to_nat r) (replicate (Z.to_nat c) (0, 0, 0)%Q).
Proof.
  unfold np_zeros3.
  destruct (Z.ltb_spec r 0), (Z.ltb_spec c 0); simpl; try done.
  intros [= <-]. repeat split; lia.
Qed.

(** The terrain object is laid out and flat before it is populated. *)
Lemma fresh_terrain_populating cfg n el ew props origins W L b hf :
  0 <= b -> 0 <= L -> 0 <= W ->
  np_zeros3 (Cfg.num_rows cfg) (Cfg.num_cols cfg) = Some origins ->
  np_zeros (Cfg.num_rows cfg * L + 2 * b) (Cfg.num_cols cfg * W + 2 * b)
    = Some hf ->
  populating cfg b
    (Terrain.mk cfg n el ew props origins W L b
       (Cfg.num_cols cfg * W + 2 * b) (Cfg.num_rows cfg * L + 2 * b)
       hf [] []).
Proof.
  intros Hb HL HW (Hr & Hc & ->)%np_zeros3_Some Hz.
  destruct (shape_np_zeros _ _ _ Hz) as [Hs0 Hs1].
  split; [done|]. split; [done|]. split.
  - apply grid_layout_fold; simpl; rewrite ?Hs0, ?Hs1; try nia.
    + rewrite length_replicate. lia.
    + intros i row [-> _]%lookup_replicate. rewrite length_replicate. lia.
  - intros i j. unfold in_border, in_rect. simpl.
    rewrite (pixel_np_zeros _ _ _ i j Hz), Hs0, Hs1.
    by_comparisons.
Qed.

Section Construction.
Context {ext : Externals}.

(** Whichever procedural mode runs, it maintains the layout and the flat
    border. *)
Lemma procedural_mode_populating cfg b self g self' g' :
  (Cfg.curriculum cfg = true ->
   Cfg.tot_cols cfg = None /\ Cfg.tot_rows cfg = None) ->
  populating cfg b self ->
  (if Cfg.curriculum cfg then curiculum self g
   else if Cfg.selected cfg then selected_terrain self g
   else randomized_terrain self g) = Some (self', g') ->
  populating cfg b self'.
Proof.
  intros Hcur Hinv Hrun.
  destruct (Cfg.curriculum cfg).
  - destruct (Hcur eq_refl). by eapply curiculum_populating.
  - destruct (Cfg.selected cfg).
    + by eapply selected_terrain_populating.
    + by eapply randomized_terrain_populating.
Qed.

(** C8: when no image is loaded, the curriculum (if chosen) runs over the
    default row and column counts, and the configured sizes are
    non-negative with a positive horizontal scale, every pixel of the
    border frame of width [border = int(border_size / horizontal_scale)]
    of the constructed heightfield is 0, in whichever of the random,
    curriculum and selected modes ran; and [add_terrain_to_map] on a
    terrain object of that layout changes no pixel outside the slot
    [[border + row * length_per_env_pixels,
      border + (row + 1) * length_per_env_pixels) x
     [border + col * width_per_env_pixels,
      border + (col + 1) * width_per_env_pixels)] of its cell. *)
Theorem C8_border_stays_flat (cfg : Cfg.t) (g g' : rng)
    (self : Terrain.t) :
  Cfg.map_path cfg = false ->
  (Cfg.curriculum cfg = true ->
   Cfg.tot_cols cfg = None /\ Cfg.tot_rows cfg = None) ->
  (0 < Cfg.horizontal_scale cfg)%Q ->
  (0 <= Cfg.border_size cfg)%Q ->
  (0 <= Cfg.terrain_length cfg)%Q ->
  (0 <= Cfg.terrain_width cfg)%Q ->
  Terrain_init cfg g = Some (Populated self, g') ->
  Terrain.border self
    = py_int (Cfg.border_size cfg / Cfg.horizontal_scale cfg) /\
  grid_layout self = true /\
  (forall i j,
     in_border self i j = true ->
     pixel (Terrain.height_field_raw self) i j = Some 0) /\
  (forall (s s' : Terrain.t) terrain row col,
     grid_layout s = true -> 0 <= row -> 0 <= col ->
     add_terrain_to_map s terrain row col = Some s' ->
     forall i j,
       in_slot s row col i j = false ->
       pixel (Terrain.height_field_raw s') i j
       = pixel (Terrain.height_field_raw s) i j).
Proof.
  intros Hmap Hcur Hhs Hbs Hlen Hwid Hinit.
  assert (populating cfg
            (py_int (Cfg.border_size cfg / Cfg.horizontal_scale cfg)) self)
    as (_ & Hb & Hlay & Hflat).
  { unfold Terrain_init in Hinit. rewrite Hmap in Hinit.
    assert (Hne : ~ (Cfg.horizontal_scale cfg == 0)%Q) by lra.
    rewrite !py_truediv_Some in Hinit by done.
    pose proof (py_int_truediv_nonneg _ _ Hbs Hhs).
    pose proof (py_int_truediv_nonneg _ _ Hlen Hhs).
    pose proof (py_int_truediv_nonneg _ _ Hwid Hhs).
    destruct (Cfg.mesh cfg); try discriminate Hinit.
    all: destruct (np_zeros3 _ _) as [origins|] eqn:Ho; [|done].
    all: simpl in Hinit.
    all: destruct (np_zeros _ _) as [hf|] eqn:Hz; [|done].
    all: simpl in Hinit.
    all: match type of Hinit with
         | (?run ≫= _) = _ =>
             destruct run as [[s1 g1]|] eqn:Hrun; [|done]
         end.
    all: injection Hinit as <- <-.
    all: eapply procedural_mode_populating; [exact Hcur| |exact Hrun].
    all: by apply fresh_terrain_populating. }
  split; [done|]. split; [done|]. split; [exact Hflat|].
  intros s s' terrain row col (? & ? & ? & _)%grid_layout_unfold ? ? Hadd.
  by apply (add_terrain_to_map_frame _ _ _ _ _ Hadd).
Qed.
End Construction.

Lemma demo_init :
  exists self g',
    Terrain_init (ext := flat_externals) demo_cfg 0%nat
    = Some (Populated self, g').
Proof.
  destruct (Terrain_init (ext := flat_externals) demo_cfg 0%nat)
    as [[[c|self] g']|] eqn:E;
    [vm_compute in E; discriminate E | eauto | vm_compute in E; discriminate E].
Defined.

Lemma C8_border_stays_flat_witness :
  exists self g',
    Terrain_init (ext := flat_externals) demo_cfg 0%nat
    = Some (Populated self, g') /\
    Terrain.border self = 2 /\
    pixel (Terrain.height_field_raw self) 1 5 = Some 0.
Proof.
  destruct demo_init as (self & g' & Hinit).
  exists self, g'. split; [exact Hinit|].
  destruct (C8_border_stays_flat (ext := flat_externals)
              demo_cfg 0%nat g' self)
    as (Hb & Hlay & Hflat & _);
    [reflexivity | intros _; split; reflexivity | reflexivity
    | discriminate | discriminate | discriminate | exact Hinit |].
  split; [exact Hb|].
  apply Hflat. unfold in_border.
  apply grid_layout_unfold in Hlay as (_ & _ & _ & -> & -> & _).
  assert (Hcfg : Terrain.cfg self = demo_cfg /\
                 Terrain.length_per_env_pixels self = 4 /\
                 Terrain.width_per_env_pixels self = 4).
  { vm_compute in Hinit. injection Hinit as <- _. repeat split. }
  destruct Hcfg as (-> & -> & ->). rewrite Hb. reflexivity.
Defined.

(** ** The shape of the sub-terrain of make_terrain *)

Lemma same_shape_refl t : same_shape t t.
Proof. by repeat split. Qed.

Lemma same_shape_trans t1 t2 t3 :
  same_shape t1 t2 -> same_shape t2 t3 -> same_shape t1 t3.
Proof.
  intros (? & ? & ? & ?) (? & ? & ? & ?). repeat split; congruence.
Qed.

Lemma gap_terrain_shape t gap_size platform_size t' :
  gap_terrain t gap_size platform_size = Some t' -> same_shape t t'.
Proof.
  unfold gap_terrain. intros H.
  destruct (py_truediv gap_size _); [|done]. simpl in H.
  destruct (py_truediv platform_size _); [|done]. simpl in H.
  injection H as <-. by repeat split.
Qed.

Lemma pit_terrain_shape t depth platform_size t' :
  pit_terrain t depth platform_size = Some t' -> same_shape t t'.
Proof.
  unfold pit_terrain. intros H.
  destruct (py_truediv depth _); [|done]. simpl in H.
  destruct (py_truediv platform_size _) as [q0|]; [|done].
  injection H as <-. by repeat split.
Qed.

Lemma broadcastable_square (W L : Z) :
  0 <= W -> 0 <= L ->
  broadcastable (Z.to_nat W) (Z.to_nat L) = true /\
  broadcastable (Z.to_nat W) (Z.to_nat W) = true
  <-> L = W \/ W = 1.
Proof.
  intros HW HL. unfold broadcastable.
  rewrite !orb_true_iff, !Nat.eqb_eq. split.
  - intros [[H|H] _]; lia.
  - intros [-> | ->]; split; auto.
Qed.

Section MakeTerrainShape.
Context {ext : Externals} {shape_preserving : ShapePreserving ext}.

Lemma run_generator_shape c t g t' g' :
  run_generator c t g = Some (t', g') -> same_shape t t'.
Proof.
  destruct c; simpl; intros H.
  - by eapply pyramid_sloped_terrain_shape.
  - destruct (pyramid_sloped_terrain _ _ _ _) as [[t1 g1]|] eqn:E1;
      [|done]. simpl in H.
    eapply same_shape_trans.
    + by eapply pyramid_sloped_terrain_shape.
    + by eapply random_uniform_terrain_shape.
  - by eapply pyramid_stairs_terrain_shape.
  - by eapply discrete_obstacles_terrain_shape.
  - by eapply discrete_obstacles_terrain_cells_shape.
  - by eapply stepping_stones_terrain_shape.
  - destruct (gap_terrain _ _ _) as [t1|] eqn:E; [|done].
    injection H as <- <-. by eapply gap_terrain_shape.
  - destruct (pit_terrain _ _ _) as [t1|] eqn:E; [|done].
    injection H as <- <-. by eapply pit_terrain_shape.
Qed.

(** The sub-terrain of [make_terrain] is square, and when its copy into
    a slot succeeds. *)
Lemma make_terrain_shape_and_copy (self : Terrain.t) (choice difficulty : Q)
    (g g' : rng) (terrain : SubTerrain.t) :
  make_terrain self choice difficulty g = Some (terrain, g') ->
  SubTerrain.width terrain = Terrain.width_per_env_pixels self /\
  SubTerrain.length terrain = Terrain.width_per_env_pixels self /\
  Z.of_nat (shape0 (SubTerrain.height_field_raw terrain))
    = Terrain.width_per_env_pixels self /\
  Z.of_nat (shape1 (SubTerrain.height_field_raw terrain))
    = Terrain.width_per_env_pixels self /\
  (forall row col,
     grid_layout self = true ->
     0 <= row < Cfg.num_rows (Terrain.cfg self) ->
     0 <= col < Cfg.num_cols (Terrain.cfg self) ->
     is_Some
       (setitem_array (Terrain.height_field_raw self)
          (Terrain.border self
           + row * Terrain.length_per_env_pixels self)
          (Terrain.border self
           + (row + 1) * Terrain.length_per_env_pixels self)
          (Terrain.border self + col * Terrain.width_per_env_pixels self)
          (Terrain.border self
           + (col + 1) * Terrain.width_per_env_pixels self)
          (SubTerrain.height_field_raw terrain))
     <-> Terrain.length_per_env_pixels self
           = Terrain.width_per_env_pixels self
         \/ Terrain.width_per_env_pixels self = 1).
Proof.
  unfold make_terrain. intros H.
  destruct (SubTerrain.new _ _ _ _) as [t0|] eqn:Hnew; [|done].
  simpl in H.
  destruct (make_terrain_branch _ _ _) as [c|]; [|done]. simpl in H.
  apply run_generator_shape in H as (Hw & Hl & Hs0 & Hs1).
  apply SubTerrain_new_Some in Hnew as (Hw0 & Hl0 & _ & _ & Hz).
  assert (HW : 0 <= Terrain.width_per_env_pixels self).
  { revert Hz. unfold np_zeros.
    destruct (Z.ltb_spec (Terrain.width_per_env_pixels self) 0);
      [done|lia]. }
  destruct (shape_np_zeros _ _ _ Hz) as [Hz0 Hz1].
  split; [congruence|]. split; [congruence|].
  split; [rewrite Hs0, Hz0; lia|]. split; [rewrite Hs1, Hz1; lia|].
  intros row col Hlay Hrow Hcol.
  rewrite setitem_array_slot_is_Some by done.
  rewrite Hs0, Hs1, Hz0, Hz1.
  apply grid_layout_unfold in Hlay as (_ & HL & _).
  by apply broadcastable_square.
Qed.

(** C10 (as amended): the sub-terrain [make_terrain] returns is square:
    its width, its length and both sides of its heightfield are
    [width_per_env_pixels] ([length_per_env_pixels] plays no part); so
    its copy into the slot of an in-range cell, of shape
    [(length_per_env_pixels, width_per_env_pixels)], succeeds exactly
    when [length_per_env_pixels = width_per_env_pixels], or when
    [width_per_env_pixels = 1] (a single pixel is broadcast). *)
Theorem C10_make_terrain_square (self : Terrain.t) (choice difficulty : Q)
    (g g' : rng) (terrain : SubTerrain.t) :
  make_terrain self choice difficulty g = Some (terrain, g') ->
  SubTerrain.width terrain = Terrain.width_per_env_pixels self /\
  SubTerrain.length terrain = Terrain.width_per_env_pixels self /\
  Z.of_nat (shape0 (SubTerrain.height_field_raw terrain))
    = Terrain.width_per_env_pixels self /\
  Z.of_nat (shape1 (SubTerrain.height_field_raw terrain))
    = Terrain.width_per_env_pixels self /\
  (forall row col,
     grid_layout self = true ->
     0 <= row < Cfg.num_rows (Terrain.cfg self) ->
     0 <= col < Cfg.num_cols (Terrain.cfg self) ->
     is_Some
       (setitem_array (Terrain.height_field_raw self)
          (Terrain.border self
           + row * Terrain.length_per_env_pixels self)
          (Terrain.border self
           + (row + 1) * Terrain.length_per_env_pixels self)
          (Terrain.border self + col * Terrain.width_per_env_pixels self)
          (Terrain.border self
           + (col + 1) * Terrain.width_per_env_pixels self)
          (SubTerrain.height_field_raw terrain))
     <-> Terrain.length_per_env_pixels self
           = Terrain.width_per_env_pixels self
         \/ Terrain.width_per_env_pixels self = 1).
Proof. apply make_terrain_shape_and_copy. Qed.
End MakeTerrainShape.

Lemma flat_externals_shape_preserving : ShapePreserving flat_externals.
Proof.
  split; simpl; intros; simplify_eq; apply same_shape_refl.
Qed.

Lemma C10_make_terrain_square_witness :
  exists terrain g',
    make_terrain (ext := flat_externals) demo_terrain (1 # 1000) (1 # 2) 0%nat
    = Some (terrain, g') /\
    SubTerrain.width terrain = 4 /\
    SubTerrain.length terrain = 4 /\
    is_Some
      (setitem_array (Terrain.height_field_raw demo_terrain) 6 10 2 6
         (SubTerrain.height_field_raw terrain)).
Proof.
  destruct (make_terrain (ext := flat_externals) demo_terrain
              (1 # 1000) (1 # 2) 0%nat) as [[terrain g']|] eqn:E;
    [|vm_compute in E; discriminate E].
  exists terrain, g'. split; [reflexivity|].
  destruct (C10_make_terrain_square
              (ext := flat_externals)
              (shape_preserving := flat_externals_shape_preserving)
              demo_terrain (1 # 1000) (1 # 2) 0%nat g' terrain E)
    as (Hw & Hl & _ & _ & Hcopy).
  split; [exact Hw|]. split; [exact Hl|].
  apply (Hcopy 1 0); [reflexivity | split; [lia | reflexivity]
    | split; [lia | reflexivity] | left; reflexivity].
Defined.

(** C10 (as stated) fails: with cells 8.05 m long and 8 m wide at 0.1 m per
    pixel both sides are 80 pixels, the copy of the square sub-terrain
    succeeds, and [env_length] differs from [env_width]. *)
Lemma C10_unequal_sides_counterexample :
  ~ (forall (self : Terrain.t) (choice difficulty : Q) (g g' : nat)
       (terrain : SubTerrain.t) (row col : Z),
       grid_layout self = true ->
       0 <= row < Cfg.num_rows (Terrain.cfg self) ->
       0 <= col < Cfg.num_cols (Terrain.cfg self) ->
       make_terrain (ext := flat_externals) self choice difficulty g
         = Some (terrain, g') ->
       is_Some
         (setitem_array (Terrain.height_field_raw self)
            (Terrain.border self
             + row * Terrain.length_per_env_pixels self)
            (Terrain.border self
             + (row + 1) * Terrain.length_per_env_pixels self)
            (Terrain.border self + col * Terrain.width_per_env_pixels self)
            (Terrain.border self
             + (col + 1) * Terrain.width_per_env_pixels self)
            (SubTerrain.height_field_raw terrain)) ->
       (Terrain.env_length self == Terrain.env_width self)%Q).
Proof.
  intros H.
  destruct (make_terrain (ext := flat_externals) uneven_terrain
              (1 # 1000) (1 # 2) 0%nat) as [[terrain g']|] eqn:E;
    [|vm_compute in E; discriminate E].
  specialize (H uneven_terrain (1 # 1000) (1 # 2) 0%nat g' terrain 0 0).
  assert (Hne : ~ (Terrain.env_length uneven_terrain
                   == Terrain.env_width uneven_terrain)%Q) by discriminate.
  apply Hne, H; [reflexivity | split; [lia | reflexivity]
    | split; [lia | reflexivity] | exact E |].
  apply (make_terrain_shape_and_copy
           (ext := flat_externals)
           (shape_preserving := flat_externals_shape_preserving)
           uneven_terrain (1 # 1000) (1 # 2) 0%nat g' terrain E);
    [reflexivity | split; [lia | reflexivity] | split; [lia | reflexivity]
    | left; reflexivity].
Qed.

(** * Further properties of the code *)

(** ** gap_terrain and pit_terrain on any sub-terrain *)

Lemma half_bounds (n : Z) : 2 * (n / 2) <= n < 2 * (n / 2) + 2.
Proof.
  pose proof (Z.div_mod n 2). pose proof (Z.mod_pos_bound n 2). lia.
Qed.

(** X1: on a sub-terrain whose heightfield has shape [(length, width)], with
    a non-zero horizontal scale and an outer square that fits the terrain
    ([0 <= x1], [x1 + gap <= length // 2], likewise in [y]),
    [gap_terrain] returns; the rectangle of half-widths
    [x1 = (length - platform) // 2] and [y1 = (width - platform) // 2]
    around the centre pixel is 0, the frame of [gap] pixels around it
    is -1000, and every other pixel keeps its value ([platform] and [gap]
    are the sizes in pixels). *)
Theorem gap_terrain_geometry (t : SubTerrain.t) (gap_size platform_size : Q) :
  let hs := SubTerrain.horizontal_scale t in
  let gap := py_int (gap_size / hs) in
  let platform := py_int (platform_size / hs) in
  let cx := SubTerrain.length t / 2 in
  let cy := SubTerrain.width t / 2 in
  let x1 := (SubTerrain.length t - platform) / 2 in
  let y1 := (SubTerrain.width t - platform) / 2 in
  ~ (hs == 0)%Q ->
  Z.of_nat (shape0 (SubTerrain.height_field_raw t)) = SubTerrain.length t ->
  Z.of_nat (shape1 (SubTerrain.height_field_raw t)) = SubTerrain.width t ->
  0 <= gap -> 0 <= x1 -> x1 + gap <= cx -> 0 <= y1 -> y1 + gap <= cy ->
  exists t',
    gap_terrain t gap_size platform_size = Some t' /\
    forall i j,
      pixel (SubTerrain.height_field_raw t') i j =
        (fun c =>
           if in_rect (cx - x1) (cx + x1) (cy - y1) (cy + y1) i j then 0
           else if in_rect (cx - (x1 + gap)) (cx + (x1 + gap))
                           (cy - (y1 + gap)) (cy + (y1 + gap)) i j
                then -1000
                else c)
        <$> pixel (SubTerrain.height_field_raw t) i j.
Proof.
  intros hs gap platform cx cy x1 y1 Hhs Hs0 Hs1 Hg Hx1 Hx2 Hy1 Hy2.
  unfold gap_terrain. fold hs. rewrite !py_truediv_Some by done. simpl.
  eexists. split; [reflexivity|]. intros i j. simpl.
  rewrite !pixel_setitem_scalar. simpl.
  fold gap platform cx cy x1 y1.
  pose proof (half_bounds (SubTerrain.length t)).
  pose proof (half_bounds (SubTerrain.width t)).
  fold cx in H. fold cy in H0.
  rewrite !in_slice_fits by lia.
  change (wrap_int16 0) with 0. change (wrap_int16 (-1000)) with (-1000).
  destruct (pixel (SubTerrain.height_field_raw t) i j) as [c|]; [|done].
  simpl. f_equal. unfold in_rect. by_comparisons.
Qed.

Lemma gap_terrain_geometry_witness :
  exists t0 t',
    SubTerrain.new 80 80 (5 # 1000) (1 # 10) = Some t0 /\
    gap_terrain t0 (1 # 2) 3 = Some t' /\
    pixel (SubTerrain.height_field_raw t') 40 40 = Some 0 /\
    pixel (SubTerrain.height_field_raw t') 12 40 = Some (-1000) /\
    pixel (SubTerrain.height_field_raw t') 9 40 = Some 0.
Proof.
  destruct (SubTerrain_new_is_Some 80 80 (5 # 1000) (1 # 10))
    as [t0 Hnew]; [lia | lia |].
  pose proof (SubTerrain_new_Some _ _ _ _ _ Hnew) as (Hw & Hl & _ & Hhs & Hz).
  destruct (shape_np_zeros _ _ _ Hz) as [Hs0 Hs1].
  destruct (gap_terrain_geometry t0 (1 # 2) 3) as (t' & Hgap & Hpix).
  - rewrite Hhs. discriminate.
  - rewrite Hs0, Hl. reflexivity.
  - rewrite Hs1, Hw. reflexivity.
  - rewrite Hhs. discriminate.
  - rewrite Hhs, Hl. discriminate.
  - rewrite Hhs, Hl. discriminate.
  - rewrite Hhs, Hw. discriminate.
  - rewrite Hhs, Hw. discriminate.
  - exists t0, t'. split; [exact Hnew|]. split; [exact Hgap|].
    rewrite !Hpix, !(pixel_np_zeros _ _ _ _ _ Hz), Hhs, Hl, Hw.
    repeat split; reflexivity.
Defined.

(** X2: on a sub-terrain whose heightfield has shape [(length, width)], with
    non-zero scales and a platform that fits ([0 <= half],
    [half <= length // 2], [half <= width // 2] for
    [half = int(platform_size / horizontal_scale / 2)]), [pit_terrain]
    returns; the square of half-width [half] around the centre pixel holds
    [-int(depth / vertical_scale)] (as an [int16]), and every other pixel
    keeps its value. *)
Theorem pit_terrain_geometry (t : SubTerrain.t) (depth platform_size : Q) :
  let half := py_int (platform_size / SubTerrain.horizontal_scale t / 2) in
  let cx := SubTerrain.length t / 2 in
  let cy := SubTerrain.width t / 2 in
  ~ (SubTerrain.horizontal_scale t == 0)%Q ->
  ~ (SubTerrain.vertical_scale t == 0)%Q ->
  Z.of_nat (shape0 (SubTerrain.height_field_raw t)) = SubTerrain.length t ->
  Z.of_nat (shape1 (SubTerrain.height_field_raw t)) = SubTerrain.width t ->
  0 <= half -> half <= cx -> half <= cy ->
  exists t',
    pit_terrain t depth platform_size = Some t' /\
    forall i j,
      pixel (SubTerrain.height_field_raw t') i j =
        (fun c =>
           if in_rect (cx - half) (cx + half) (cy - half) (cy + half) i j
           then wrap_int16 (- py_int (depth / SubTerrain.vertical_scale t))
           else c)
        <$> pixel (SubTerrain.height_field_raw t) i j.
Proof.
  intros half cx cy Hhs Hvs Hs0 Hs1 Hh Hx Hy.
  unfold pit_terrain. rewrite !py_truediv_Some by (done || discriminate).
  simpl. eexists. split; [reflexivity|]. intros i j. simpl.
  rewrite pixel_setitem_scalar. fold half cx cy.
  pose proof (half_bounds (SubTerrain.length t)).
  pose proof (half_bounds (SubTerrain.width t)).
  fold cx in H. fold cy in H0.
  rewrite !in_slice_fits by lia.
  destruct (pixel (SubTerrain.height_field_raw t) i j) as [c|]; [|done].
  simpl. f_equal. unfold in_rect. by_comparisons.
Qed.

Lemma pit_terrain_geometry_witness :
  exists t',
    pit_terrain demo_peak 1 2 = Some t' /\
    pixel (SubTerrain.height_field_raw t') 1 1 = Some (-2) /\
    pixel (SubTerrain.height_field_raw t') 0 1 = Some 0.
Proof.
  destruct (pit_terrain_geometry demo_peak 1 2) as (t' & Hpit & Hpix);
    [discriminate | discriminate | reflexivity | reflexivity
    | discriminate | discriminate | discriminate |].
  exists t'. split; [exact Hpit|].
  rewrite !Hpix. split; reflexivity.
Defined.

(** X3: with a gap below one pixel ([int(gap_size / horizontal_scale) = 0],
    as at difficulty 0) [gap_terrain] carves nothing: whatever the size of
    the sub-terrain, no pixel receives -1000, and a pixel either keeps its
    value or is reset to 0. *)
Theorem gap_terrain_zero_gap (t : SubTerrain.t) (gap_size platform_size : Q) :
  ~ (SubTerrain.horizontal_scale t == 0)%Q ->
  py_int (gap_size / SubTerrain.horizontal_scale t) = 0 ->
  exists t',
    gap_terrain t gap_size platform_size = Some t' /\
    forall i j c,
      pixel (SubTerrain.height_field_raw t) i j = Some c ->
      pixel (SubTerrain.height_field_raw t') i j = Some c \/
      pixel (SubTerrain.height_field_raw t') i j = Some 0.
Proof.
  intros Hhs Hgap.
  unfold gap_terrain. rewrite !py_truediv_Some by done. simpl.
  eexists. split; [reflexivity|]. intros i j c Hc. simpl.
  rewrite !pixel_setitem_scalar, Hc, Hgap, !Z.add_0_r. simpl.
  change (wrap_int16 0) with 0.
  destruct (_ && _); auto.
Qed.

Lemma gap_terrain_zero_gap_witness :
  exists t',
    gap_terrain demo_peak 0 3 = Some t' /\
    forall i j c,
      pixel (SubTerrain.height_field_raw demo_peak) i j = Some c ->
      pixel (SubTerrain.height_field_raw t') i j = Some c \/
      pixel (SubTerrain.height_field_raw t') i j = Some 0.
Proof.
  apply (gap_terrain_zero_gap demo_peak 0 3); [discriminate | reflexivity].
Defined.

(** ** Threshold tables of the wrong length *)

(** X4: with at least 8 thresholds the chain of [make_terrain] never
    indexes past the table: a branch is selected for every choice and
    difficulty, whatever the order of the thresholds. *)
Theorem make_terrain_branch_returns (proportions : list Q)
    (choice difficulty : Q) :
  (8 <= length proportions)%nat ->
  is_Some (make_terrain_branch proportions choice difficulty).
Proof.
  intros Hlen. unfold make_terrain_branch.
  destruct (lookup_lt_is_Some_2 proportions 0) as [p0 ->]; [lia|].
  destruct (lookup_lt_is_Some_2 proportions 1) as [p1 ->]; [lia|].
  destruct (lookup_lt_is_Some_2 proportions 2) as [p2 ->]; [lia|].
  destruct (lookup_lt_is_Some_2 proportions 3) as [p3 ->]; [lia|].
  destruct (lookup_lt_is_Some_2 proportions 4) as [p4 ->]; [lia|].
  destruct (lookup_lt_is_Some_2 proportions 5) as [p5 ->]; [lia|].
  destruct (lookup_lt_is_Some_2 proportions 6) as [p6 ->]; [lia|].
  destruct (lookup_lt_is_Some_2 proportions 7) as [p7 ->]; [lia|].
  simpl.
  repeat (match goal with
          | |- context [py_lt ?a ?b] => destruct (py_lt a b)
          end; simpl; eauto).
Qed.

Lemma make_terrain_branch_returns_witness :
  is_Some (make_terrain_branch [1; 0; 1; 0; 1; 0; 1; 0; 1]%Q (1 # 2) 1).
Proof.
  apply make_terrain_branch_returns. simpl. lia.
Defined.

(** X5: with fewer than 8 thresholds (the upstream default has 5), a choice
    that is below none of them makes [make_terrain] index past the table:
    the call raises instead of falling through to a last branch. *)
Theorem make_terrain_branch_short_table (proportions : list Q)
    (choice difficulty : Q) :
  (length proportions < 8)%nat ->
  (forall (i : nat) p, proportions !! i = Some p -> (p <= choice)%Q) ->
  make_terrain_branch proportions choice difficulty = None.
Proof.
  intros Hlen Hall.
  assert (Hf : forall (i : nat) p,
             proportions !! i = Some p -> py_lt choice p = false)
    by (intros i p Hp; apply py_lt_false; eauto).
  unfold make_terrain_branch.
  destruct (proportions !! 0%nat) as [p0|] eqn:E0; [|done].
  simpl. rewrite (Hf _ _ E0). simpl.
  destruct (proportions !! 1%nat) as [p1|] eqn:E1; [|done].
  simpl. rewrite (Hf _ _ E1). simpl.
  destruct (proportions !! 3%nat) as [p3|] eqn:E3; [|done].
  simpl. rewrite (Hf _ _ E3). simpl.
  destruct (proportions !! 4%nat) as [p4|] eqn:E4; [|done].
  simpl. rewrite (Hf _ _ E4). simpl.
  destruct (proportions !! 5%nat) as [p5|] eqn:E5; [|done].
  simpl. rewrite (Hf _ _ E5). simpl.
  destruct (proportions !! 6%nat) as [p6|] eqn:E6; [|done].
  simpl. rewrite (Hf _ _ E6). simpl.
  rewrite (lookup_ge_None_2 proportions 7) by lia. done.
Qed.

Lemma make_terrain_branch_short_table_witness :
  make_terrain_branch
    (cumulative_proportions [1 # 10; 1 # 10; 35 # 100; 25 # 100; 2 # 10]%Q)
    1 (1 # 2) = None.
Proof.
  apply make_terrain_branch_short_table.
  - simpl. lia.
  - intros i p Hp.
    do 5 (destruct i as [|i]; [injection Hp as <-; vm_compute; discriminate|]).
    discriminate Hp.
Defined.

(** ** Image-derived maps *)

Lemma lookup_padded {A} (z : A) (n m : nat) (l : list A) (k : nat) :
  (replicate n z ++ l ++ replicate m z) !! k =
    if (k <? n)%nat then Some z
    else if (k <? n + length l)%nat then l !! (k - n)%nat
    else if (k <? n + length l + m)%nat then Some z
    else None.
Proof.
  destruct (Nat.ltb_spec k n).
  - rewrite lookup_app_l by (rewrite length_replicate; lia).
    by apply lookup_replicate_2.
  - rewrite lookup_app_r by (rewrite length_replicate; lia).
    rewrite length_replicate.
    destruct (Nat.ltb_spec k (n + length l)).
    + by rewrite lookup_app_l by lia.
    + rewrite lookup_app_r by lia.
      destruct (Nat.ltb_spec k (n + length l + m)).
      * apply lookup_replicate_2. lia.
      * apply lookup_replicate_None. lia.
Qed.

Lemma to_shape_Some a y_ x_ b :
  to_shape a (y_, x_) = Some b ->
  let top := (y_ - Z.of_nat (shape0 a)) / 2 in
  let left := (x_ - Z.of_nat (shape1 a)) / 2 in
  let bottom := top + (y_ - Z.of_nat (shape0 a)) mod 2 in
  let right := left + (x_ - Z.of_nat (shape1 a)) mod 2 in
  0 <= top /\ 0 <= left /\ 0 <= bottom /\ 0 <= right /\
  b = mk_ndarray
        (Z.to_nat (top + Z.of_nat (shape0 a) + bottom))
        (Z.to_nat (left + Z.of_nat (shape1 a) + right))
        (replicate (Z.to_nat top)
           (replicate (Z.to_nat (left + Z.of_nat (shape1 a) + right)) 0)
         ++ map (fun row =>
                   replicate (Z.to_nat left) 0 ++ row
                   ++ replicate (Z.to_nat right) 0) (rows_of a)
         ++ replicate (Z.to_nat bottom)
              (replicate (Z.to_nat (left + Z.of_nat (shape1 a) + right)) 0)).
Proof.
  intros H top left bottom right. unfold to_shape in H.
  fold top left in H. fold bottom right in H.
  destruct (Z.ltb_spec top 0), (Z.ltb_spec bottom 0), (Z.ltb_spec left 0),
    (Z.ltb_spec right 0); simpl in H; try done.
  injection H as <-. repeat (split; [lia|]). reflexivity.
Qed.

Lemma half_split (n : Z) :
  n / 2 + (n / 2 + n mod 2) = n /\ 0 <= n mod 2 < 2.
Proof.
  pose proof (Z.div_mod n 2). pose proof (Z.mod_pos_bound n 2). lia.
Qed.

(** X6: [to_shape] pads and never crops: it returns exactly when the array
    is at most as tall and as wide as the target shape, and then its result
    has the target shape. *)
Theorem to_shape_fits (a : ndarray) (y_ x_ : Z) :
  (is_Some (to_shape a (y_, x_))
   <-> Z.of_nat (shape0 a) <= y_ /\ Z.of_nat (shape1 a) <= x_) /\
  (forall b,
     to_shape a (y_, x_) = Some b ->
     Z.of_nat (shape0 b) = y_ /\ Z.of_nat (shape1 b) = x_).
Proof.
  pose proof (half_split (y_ - Z.of_nat (shape0 a))) as [Hy Hy'].
  pose proof (half_split (x_ - Z.of_nat (shape1 a))) as [Hx Hx'].
  split; [split|].
  - intros [b Hb]. apply to_shape_Some in Hb as (? & ? & ? & ? & _). lia.
  - intros [Hfy Hfx]. unfold to_shape.
    destruct (Z.ltb_spec ((y_ - Z.of_nat (shape0 a)) / 2) 0); [lia|].
    destruct (Z.ltb_spec ((y_ - Z.of_nat (shape0 a)) / 2
                          + (y_ - Z.of_nat (shape0 a)) mod 2) 0); [lia|].
    destruct (Z.ltb_spec ((x_ - Z.of_nat (shape1 a)) / 2) 0); [lia|].
    destruct (Z.ltb_spec ((x_ - Z.of_nat (shape1 a)) / 2
                          + (x_ - Z.of_nat (shape1 a)) mod 2) 0); [lia|].
    simpl. eauto.
  - intros b Hb. apply to_shape_Some in Hb as (? & ? & ? & ? & ->). simpl.
    lia.
Qed.

Lemma lookup_replicate_ltb {A} (n : nat) (z : A) (k : nat) :
  replicate n z !! k = if (k <? n)%nat then Some z else None.
Proof.
  destruct (Nat.ltb_spec k n).
  - by apply lookup_replicate_2.
  - by apply lookup_replicate_None.
Qed.

(** X7: [to_shape] centres the array: with [top = (y_ - y) // 2] rows above
    and [left = (x_ - x) // 2] columns to the left (the odd row or column
    of padding goes below or to the right), pixel [(top + i, left + j)] of
    the result is pixel [(i, j)] of the array and every other pixel of the
    result is 0. *)
Theorem to_shape_centres (a b : ndarray) (y_ x_ : Z) :
  ndarray_wf a = true ->
  to_shape a (y_, x_) = Some b ->
  let top := (y_ - Z.of_nat (shape0 a)) / 2 in
  let left := (x_ - Z.of_nat (shape1 a)) / 2 in
  forall i j,
    pixel b i j =
      if in_rect 0 y_ 0 x_ i j
      then if in_rect top (top + Z.of_nat (shape0 a))
                      left (left + Z.of_nat (shape1 a)) i j
           then pixel a (i - Z.to_nat top) (j - Z.to_nat left)
           else Some 0
      else None.
Proof.
  intros Hwf Hb top left i j.
  pose proof (proj2 (to_shape_fits a y_ x_) b Hb) as [Hby Hbx].
  apply to_shape_Some in Hb as (Ht & Hl & Hbo & Hr & ->).
  fold top left in Ht, Hl, Hbo, Hr, Hby, Hbx |- *. simpl in Hby, Hbx.
  apply andb_true_iff in Hwf as [Hrows Hcols].
  apply Nat.eqb_eq in Hrows. rewrite forallb_forall in Hcols.
  unfold pixel. simpl.
  change (map ?f ?l) with (f <$> l).
  rewrite lookup_padded, length_fmap, Hrows, list_lookup_fmap.
  unfold in_rect.
  repeat match goal with
    | |- context [(?n <? ?m)%nat] => destruct (Nat.ltb_spec n m)
    end; simpl.
  - rewrite lookup_replicate_ltb.
    repeat match goal with
      | |- context [(?n <? ?m)%nat] => destruct (Nat.ltb_spec n m)
      end; by_comparisons.
  - destruct (lookup_lt_is_Some_2 (rows_of a) (i - Z.to_nat top))
      as [row Hrow]; [lia|].
    rewrite Hrow. simpl.
    assert (Hlen : length row = shape1 a).
    { apply Nat.eqb_eq, Hcols, list_elem_of_In.
      by eapply list_elem_of_lookup_2. }
    rewrite lookup_padded, Hlen.
    repeat match goal with
      | |- context [(?n <? ?m)%nat] => destruct (Nat.ltb_spec n m)
      end; by_comparisons.
  - rewrite lookup_replicate_ltb.
    repeat match goal with
      | |- context [(?n <? ?m)%nat] => destruct (Nat.ltb_spec n m)
      end; by_comparisons.
  - by_comparisons.
Qed.

Lemma to_shape_centres_witness :
  exists b,
    to_shape (SubTerrain.height_field_raw demo_peak) (7, 6) = Some b /\
    pixel b 2 2 = Some 7 /\ pixel b 1 1 = Some 0 /\ pixel b 6 5 = Some 0 /\
    pixel b 7 0 = None.
Proof.
  destruct (to_shape (SubTerrain.height_field_raw demo_peak) (7, 6))
    as [b|] eqn:E; [|vm_compute in E; discriminate E].
  exists b. split; [reflexivity|].
  rewrite !(to_shape_centres (SubTerrain.height_field_raw demo_peak) b 7 6
             eq_refl E).
  repeat split; reflexivity.
Defined.

(** ** Threefold upscaling *)

Lemma lookup_flat_map_replicate3 {A B} (f : A -> B) (l : list A) (k : nat) :
  flat_map (fun x => replicate 3 (f x)) l !! k = f <$> l !! (k / 3)%nat.
Proof.
  revert k. induction l as [|x l IH]; intros k; [done|].
  change (flat_map (fun x => replicate 3 (f x)) (x :: l))
    with (f x :: f x :: f x :: flat_map (fun x => replicate 3 (f x)) l).
  destruct k as [|[|[|k]]]; [done | done | done |].
  assert (E : (S (S (S k)) / 3 = S (k / 3))%nat).
  { replace (S (S (S k))) with (k + 1 * 3)%nat by lia.
    rewrite Nat.div_add by lia. lia. }
  rewrite E. simpl. apply IH.
Qed.

(** X8: [a.repeat(3, axis=0).repeat(3, axis=1)] is the nearest-neighbour
    upscaling by 3: the shape is tripled and pixel [(i, j)] of the result
    is pixel [(i // 3, j // 3)] of the array. *)
Theorem repeat3_pixel (a : ndarray) (i j : nat) :
  shape0 (repeat3 a) = (3 * shape0 a)%nat /\
  shape1 (repeat3 a) = (3 * shape1 a)%nat /\
  pixel (repeat3 a) i j = pixel a (i / 3) (j / 3).
Proof.
  split; [done|]. split; [done|].
  unfold pixel, repeat3. cbn [rows_of].
  rewrite (lookup_flat_map_replicate3 (flat_map (replicate 3))).
  destruct (rows_of a !! (i / 3)%nat) as [row|]; [|done].
  cbn [fmap option_fmap option_map mbind option_bind].
  change (flat_map (replicate 3) row)
    with (flat_map (fun c => replicate 3 (id c)) row).
  rewrite (lookup_flat_map_replicate3 id).
  by destruct (row !! (j / 3)%nat).
Qed.


Lemma py_range_pos n : 0 < n -> exists l, py_range n = 0 :: l.
Proof.
  intros Hn. unfold py_range.
  destruct (Z.to_nat n) as [|m] eqn:E; [lia|].
  simpl. eauto.
Qed.

Section ImageAndSelectedModes.
Context {ext : Externals}.


(** X10: an image of more than 300 rows or more than 300 columns cannot be
    used: its upscaled copy exceeds 900 pixels, [to_shape] raises, and so
    does the construction of the terrain object. *)
Theorem image_mode_too_large (cfg : Cfg.t) (g : rng) (im : ndarray) :
  Cfg.map_path cfg = true ->
  Cfg.mesh cfg = mesh_heightfield \/ Cfg.mesh cfg = mesh_trimesh ->
  imread_alpha = Some im ->
  (300 < shape0 im \/ 300 < shape1 im)%nat ->
  Terrain_init cfg g = None.
Proof.
  intros Hmap Hmesh Him Hbig.
  assert (Hshape : to_shape (repeat3 im) (900, 900) = None).
  { apply eq_None_not_Some.
    intros [Hy Hx]%(proj1 (to_shape_fits (repeat3 im) 900 900)).
    cbn [repeat3 shape0 shape1] in Hy, Hx. lia. }
  unfold Terrain_init. rewrite Hmap, Him.
  destruct Hmesh as [-> | ->].
  all: destruct (np_zeros3 _ _); [|done].
  all: cbn [mbind option_bind].
  all: destruct (py_int <$> py_truediv (Cfg.terrain_width cfg) _); [|done].
  all: cbn [mbind option_bind].
  all: destruct (py_int <$> py_truediv (Cfg.terrain_length cfg) _); [|done].
  all: cbn [mbind option_bind].
  all: destruct (py_int <$> py_truediv (Cfg.border_size cfg) _); [|done].
  all: cbn [mbind option_bind].
  all: destruct (np_zeros _ _); [|done].
  all: cbn [mbind option_bind].
  all: by rewrite Hshape.
Qed.

(** X11: the selected mode cannot populate a grid: its loop body reads
    [self.vertical_scale], which [__init__] never sets, so with at least
    one cell the construction raises, whichever generator is named. *)
Theorem selected_mode_raises (cfg : Cfg.t) (g : rng) :
  Cfg.map_path cfg = false ->
  Cfg.curriculum cfg = false ->
  Cfg.selected cfg = true ->
  Cfg.mesh cfg = mesh_heightfield \/ Cfg.mesh cfg = mesh_trimesh ->
  1 <= Cfg.num_rows cfg -> 1 <= Cfg.num_cols cfg ->
  Terrain_init cfg g = None.
Proof.
  intros Hmap Hcur Hsel Hmesh Hr Hc.
  assert (Hrun : forall self,
            Terrain.num_sub_terrains self
              = Cfg.num_rows cfg * Cfg.num_cols cfg ->
            selected_terrain self g = None).
  { intros self Hn. unfold selected_terrain.
    destruct (Cfg.terrain_kwargs_type _); [|done].
    cbn [mbind option_bind].
    destruct (py_range_pos (Terrain.num_sub_terrains self)) as [l ->];
      [nia|].
    cbn [for_each]. by destruct (unravel_index _ _ _) as [[i j]|]. }
  unfold Terrain_init. rewrite Hmap, Hcur, Hsel.
  destruct Hmesh as [-> | ->].
  all: destruct (np_zeros3 _ _); [|done].
  all: cbn [mbind option_bind].
  all: destruct (py_int <$> py_truediv (Cfg.terrain_width cfg) _); [|done].
  all: cbn [mbind option_bind].
  all: destruct (py_int <$> py_truediv (Cfg.terrain_length cfg) _); [|done].
  all: cbn [mbind option_bind].
  all: destruct (py_int <$> py_truediv (Cfg.border_size cfg) _); [|done].
  all: cbn [mbind option_bind].
  all: destruct (np_zeros _ _); [|done].
  all: cbn [mbind option_bind].
  all: by rewrite Hrun.
Qed.
End ImageAndSelectedModes.

Lemma image_mode_too_large_witness :
  Terrain_init (ext := image_externals (mk_ndarray 301 1 (replicate 301 [0])))
    image_cfg 0%nat = None.
Proof.
  apply (image_mode_too_large
           (ext := image_externals (mk_ndarray 301 1 (replicate 301 [0])))
           image_cfg 0%nat (mk_ndarray 301 1 (replicate 301 [0])));
    [reflexivity | right; reflexivity | reflexivity | simpl; lia].
Defined.

Lemma selected_mode_raises_witness :
  Terrain_init (ext := flat_externals) selected_cfg 0%nat = None.
Proof.
  apply (selected_mode_raises (ext := flat_externals) selected_cfg 0%nat);
    [reflexivity | reflexivity | reflexivity | left; reflexivity
    | simpl; lia | simpl; lia].
Defined.


